(** * sfdx-falcon-plugin: the AppExchange Demo Kit helper and the Git helper

    A shallow embedding of [helpers/adk-helper.ts] (class [AppxDemoProject],
    [validateAppxDemoConfig], [validateDemoBuildConfig]) and of
    [helpers/git-helper.ts] (the shell wrappers around git), followed by the
    properties of the specification that concern them.

    JavaScript values are a small tagged union, thrown exceptions are an
    explicit completion type, the mutable [this] of [AppxDemoProject] is
    threaded through a state-and-exception monad, and every interaction with
    shelljs is an event of a free monad that is run against an arbitrary
    oracle, so that the order and number of the shell calls can be observed. *)

From Stdlib Require Import ZArith String Ascii List Bool Lia.
From stdpp Require Import base option list strings gmap pretty.

Local Open Scope string_scope.
Local Open Scope Z_scope.

(* ===================================================================== *)
(** ** JavaScript values, exceptions *)
(* ===================================================================== *)

Module Js.

(** A JavaScript number as far as this code looks at it: exit codes and
    second counts, or [NaN].  [Num z] is the Number value of the integer
    literal [z], that is the double nearest to [z]. *)
Inductive number :=
| NaN
| Num (z : Z).

(** A value read out of a JSON document or passed by a caller.  [JObj s] is
    any non-array object, [s] being what its [toString()] answers. *)
Inductive value :=
| JUndefined
| JNull
| JBool (b : bool)
| JNum (n : number)
| JStr (s : string)
| JObj (rendering : string).

(** A value that is no object. *)
Inductive primitive :=
| PUndefined
| PNull
| PBool (b : bool)
| PNum (n : number)
| PStr (s : string).

Definition value_of (p : primitive) : value :=
  match p with
  | PUndefined => JUndefined
  | PNull => JNull
  | PBool b => JBool b
  | PNum n => JNum n
  | PStr s => JStr s
  end.

(** [typeof v] *)
Definition typeof (v : value) : string :=
  match v with
  | JUndefined => "undefined"
  | JNull => "object"
  | JBool _ => "boolean"
  | JNum _ => "number"
  | JStr _ => "string"
  | JObj _ => "object"
  end.

(** [!v]: true on the falsy values. *)
Definition lnot (v : value) : bool :=
  match v with
  | JUndefined | JNull => true
  | JBool b => negb b
  | JNum NaN => true
  | JNum (Num z) => z =? 0
  | JStr s => if decide (s = "") then true else false
  | JObj _ => false
  end.

(** *** The string conversion of numbers

    [Number::toString] of ECMAScript on the Number value of an integer:
    the decimal with the fewest significant digits that still denotes the
    same double, written out in full when it has at most 21 digits and in
    exponent form from there on. *)

(** The Number value of the integer literal [z >= 0]: [z] rounded to 53
    significant bits, ties to the even significand.  [None] is
    [Infinity]. *)
Definition Number_of (z : Z) : option Z :=
  let bits := Z.log2 z + 1 in
  if bits <=? 53 then Some z
  else
    let shift := bits - 53 in
    let significand := Z.shiftr z shift in
    let rest := z - Z.shiftl significand shift in
    let half := Z.shiftl 1 (shift - 1) in
    let significand :=
      if (half <? rest) || ((rest =? half) && Z.odd significand)
      then significand + 1 else significand in
    let d := Z.shiftl significand shift in
    if 2 ^ 1024 <=? d then None else Some d.

(** The number of decimal digits of [z >= 0]. *)
Definition digits (z : Z) : Z := Z.of_nat (String.length (pretty z)).

(** Whether the decimal [v] denotes the double [d]. *)
Definition denotes (v d : Z) : bool :=
  match Number_of v with
  | Some d' => d' =? d
  | None => false
  end.

(** The decimal that [Number::toString] prints for the double [d >= 1]:
    with [k] significant digits there are the two neighbours of [d] to
    try, the nearer one first and the even one on a tie; the first [k]
    for which one of them denotes [d] is taken.  Seventeen digits always
    tell a double. *)
Fixpoint shortest_from (tries : nat) (k d : Z) : Z :=
  match tries with
  | O => d
  | S tries =>
      if digits d <=? k then d
      else
        let unit := 10 ^ (digits d - k) in
        let below := d / unit * unit in
        let above := below + unit in
        match denotes below d, denotes above d with
        | true, true =>
            if d - below <? above - d then below
            else if above - d <? d - below then above
            else if Z.even (d / unit) then below else above
        | true, false => below
        | false, true => above
        | false, false => shortest_from tries (k + 1) d
        end
  end.

Definition shortest (d : Z) : Z := shortest_from 17 1 d.

(** The digits of a decimal without its trailing zeros. *)
Fixpoint significant (s : string) : string :=
  match s with
  | EmptyString => EmptyString
  | String c rest =>
      match significant rest with
      | EmptyString =>
          if decide (c = "0"%char) then EmptyString else String c EmptyString
      | kept => String c kept
      end
  end.

(** [String(z)] for the Number value of the integer [z]. *)
Definition Number_toString (z : Z) : string :=
  let sign := if z <? 0 then "-" else "" in
  match Number_of (Z.abs z) with
  | None => sign +:+ "Infinity"
  | Some d =>
      let v := shortest d in
      let n := digits v in
      if n <=? 21 then sign +:+ pretty v
      else
        match significant (pretty v) with
        | String c EmptyString =>
            sign +:+ String c EmptyString +:+ "e+" +:+ pretty (n - 1)
        | String c more =>
            sign +:+ String c EmptyString +:+ "." +:+ more +:+ "e+" +:+ pretty (n - 1)
        | EmptyString => sign +:+ "0"
        end
  end.

(** [`${v}`], the string conversion of template literals. *)
Definition template (v : value) : string :=
  match v with
  | JUndefined => "undefined"
  | JNull => "null"
  | JBool true => "true"
  | JBool false => "false"
  | JNum NaN => "NaN"
  | JNum (Num z) => Number_toString z
  | JStr s => s
  | JObj s => s
  end.

(** [isNaN(n)] on a number. *)
Definition isNaN (n : number) : bool :=
  match n with NaN => true | Num _ => false end.

(** [n > 0] *)
Definition gt_zero (n : number) : bool :=
  match n with NaN => false | Num z => 0 <? z end.

#[export] Instance number_eq_dec : EqDecision number.
Proof. solve_decision. Defined.

#[export] Instance value_eq_dec : EqDecision value.
Proof. solve_decision. Defined.

(** [o.key] on an object read from JSON: an absent key reads [undefined]. *)
Definition get (o : gmap string value) (key : string) : value :=
  default JUndefined (o !! key).

(** The two exception classes the helpers throw. *)
Inductive error_class := ErrorClass | TypeErrorClass.

Record exn := MkExn { exn_class : error_class; exn_message : string }.

Definition Error (msg : string) : exn := MkExn ErrorClass msg.
Definition TypeError (msg : string) : exn := MkExn TypeErrorClass msg.

(** The outcome of evaluating a statement list: it ran to its end (or to a
    [return]) or it threw. *)
Inductive completion (A : Type) :=
| Normal (a : A)
| Throw (e : exn).
Arguments Normal {A} a.
Arguments Throw {A} e.

(** Sequencing: what follows runs when what came before did not throw. *)
Definition and_then {A B} (c : completion A) (k : A -> completion B)
  : completion B :=
  match c with
  | Normal a => k a
  | Throw e => Throw e
  end.

(** The double quote character, for the one command line that contains it. *)
Definition dquote : string := String "034"%char EmptyString.

(** [Array.prototype.join(',')] on an array of strings, which is what a
    template literal does to a string array. *)
Fixpoint join_comma (l : list string) : string :=
  match l with
  | [] => ""
  | [x] => x
  | x :: rest => x +:+ "," +:+ join_comma rest
  end.

(** *** [String.prototype.trim]

    A string is the sequence of the bytes of its UTF-8 encoding.  The
    patterns and the string methods of the two files look at ASCII
    characters only; [trim] alone knows characters beyond ASCII. *)

(** The ASCII white space and line terminators: space, tab, line feed,
    vertical tab, form feed, carriage return. *)
Definition is_space (c : ascii) : bool :=
  let n := nat_of_ascii c in
  (Nat.eqb n 32 || (Nat.leb 9 n && Nat.leb n 13))%bool.

(** U+00A0, the no-break space. *)
Definition is_space2 (a b : ascii) : bool :=
  (Nat.eqb (nat_of_ascii a) 194 && Nat.eqb (nat_of_ascii b) 160)%bool.

(** The white space and line terminators of three bytes: U+1680, U+2000 to
    U+200A, U+2028, U+2029, U+202F, U+205F, U+3000 and U+FEFF. *)
Definition is_space3 (a b c : ascii) : bool :=
  let a := nat_of_ascii a in
  let b := nat_of_ascii b in
  let c := nat_of_ascii c in
  ((Nat.eqb a 225 && Nat.eqb b 154 && Nat.eqb c 128)
   || (Nat.eqb a 226 && Nat.eqb b 128
       && ((Nat.leb 128 c && Nat.leb c 138)
           || Nat.eqb c 168 || Nat.eqb c 169 || Nat.eqb c 175))
   || (Nat.eqb a 226 && Nat.eqb b 129 && Nat.eqb c 159)
   || (Nat.eqb a 227 && Nat.eqb b 128 && Nat.eqb c 128)
   || (Nat.eqb a 239 && Nat.eqb b 187 && Nat.eqb c 191))%bool.

Fixpoint trim_start (s : string) : string :=
  match s with
  | EmptyString => EmptyString
  | String a rest1 =>
      if is_space a then trim_start rest1
      else
        match rest1 with
        | EmptyString => s
        | String b rest2 =>
            if is_space2 a b then trim_start rest2
            else
              match rest2 with
              | EmptyString => s
              | String c rest3 =>
                  if is_space3 a b c then trim_start rest3 else s
              end
        end
  end.

(** Nothing but white space. *)
Definition blank (s : string) : bool :=
  if decide (trim_start s = "") then true else false.

(** [trim_end s] drops the trailing white space: a character stays unless
    there is nothing but white space from it on. *)
Fixpoint trim_end (s : string) : string :=
  match s with
  | EmptyString => EmptyString
  | String c rest => if blank s then EmptyString else String c (trim_end rest)
  end.

(** [s.trim()] *)
Definition trim (s : string) : string := trim_end (trim_start s).

(** The string of the given bytes. *)
Definition bytes (l : list nat) : string :=
  string_of_list_ascii (map ascii_of_nat l).

(** U+00A0, U+2028, U+3000 and U+FEFF. *)
Definition no_break_space : string := bytes [194; 160]%nat.
Definition line_separator : string := bytes [226; 128; 168]%nat.
Definition ideographic_space : string := bytes [227; 128; 128]%nat.
Definition byte_order_mark : string := bytes [239; 187; 191]%nat.

End Js.

Import Js.

(* ===================================================================== *)
(** ** helpers/adk-helper.ts *)
(* ===================================================================== *)

Module Adk.

(** Modelled from the spec: the enumeration [INTENT] of [../enums], which the
    source imports; section 3 of the specification lists its five values and
    the source names these same five. *)
Inductive INTENT :=
| NOT_SPECIFIED
| DEPLOY_DEMO
| HEALTH_CHECK
| REPAIR_PROJECT
| VALIDATE_DEMO.

#[export] Instance INTENT_eq_dec : EqDecision INTENT.
Proof. solve_decision. Defined.

(** [AppxDemoProjectConfig]: the ["plugins.sfdxFalcon.appxDemo"] object of
    sfdx-project.json.  A key that is absent reads as [JUndefined]. *)
Record AppxDemoProjectConfig := {
  demoAlias : value;
  demoConfig : value;
  demoTitle : value;
  demoType : value;
  demoVersion : value;
  gitHubUrl : value;
  gitRemoteUri : value;
  partnerAlias : value;
  partnerName : value;
  schemaVersion : value
}.

(** [AppxDemoLocalConfig]: the ["appxDemo"] object of the local config
    file, which is taken to hold one. *)
Record AppxDemoLocalConfig := {
  devHubAlias : value;
  demoValidationOrgAlias : value;
  demoDeploymentOrgAlias : value
}.

(** [AppxDemoProjectContext] *)
Record AppxDemoProjectContext := {
  path : string;
  config_project : AppxDemoProjectConfig;
  config_local : AppxDemoLocalConfig
}.

(** The member variables of [AppxDemoProject]. *)
Record AppxDemoProject := {
  context : AppxDemoProjectContext;
  executionIntent : INTENT;
  executingSequence : bool
}.

(** [FalconSequenceContext]; [None] is [null]. *)
Record FalconSequenceContext := {
  ctx_devHubAlias : value;
  targetOrgAlias : value;
  targetIsScratchOrg : option bool;
  projectPath : string;
  configPath : string;
  mdapiSourcePath : string;
  dataPath : string;
  logLevel : string;
  sequenceObserver : value
}.

(** A step, a group and a sequence of the demo build configuration. *)
Record FalconCommandSequenceStep := {
  stepName : string;
  step_description : string;
  action : string;
  step_options : gmap string value
}.

Record FalconCommandSequenceGroup := {
  groupId : string;
  groupName : string;
  group_description : string;
  sequenceSteps : list FalconCommandSequenceStep
}.

(** What the key [sequenceGroups] of a parsed file holds: an array of groups,
    or some other value. *)
Inductive sequenceGroupsField :=
| GroupArray (groups : list FalconCommandSequenceGroup)
| NoArray (v : value).

(** What the key [options] of a parsed file holds: an object, seen as the
    map of its properties, or a value that is no object, [PUndefined] when
    the file has no such key.  [validateDemoBuildConfig] does not look at
    it. *)
Inductive optionsField :=
| OptionsObject (o : gmap string value)
| NoObject (p : primitive).

Record FalconCommandSequence := {
  options : optionsField;
  sequenceGroups : sequenceGroupsField
}.

(** [options.key], for the two keys that [deployDemo] reads: a property of
    [undefined] or of [null] cannot be read, and a boolean, a number or a
    string has no property of these names. *)
Definition read_option (options : optionsField) (key : string)
  : completion value :=
  match options with
  | OptionsObject o => Normal (get o key)
  | NoObject PUndefined =>
      Throw (TypeError ("Cannot read property '" +:+ key +:+ "' of undefined"))
  | NoObject PNull =>
      Throw (TypeError ("Cannot read property '" +:+ key +:+ "' of null"))
  | NoObject _ => Normal JUndefined
  end.

(** [options.key = v].  The file is a module (it imports and exports), so
    its code is strict: an assignment to a property of a boolean, a number
    or a string throws. *)
Definition write_option (options : optionsField) (key : string) (v : value)
  : completion optionsField :=
  match options with
  | OptionsObject o => Normal (OptionsObject (<[key := v]> o))
  | NoObject PUndefined =>
      Throw (TypeError ("Cannot set property '" +:+ key +:+ "' of undefined"))
  | NoObject PNull =>
      Throw (TypeError ("Cannot set property '" +:+ key +:+ "' of null"))
  | NoObject p =>
      Throw (TypeError ("Cannot create property '" +:+ key +:+ "' on "
                        +:+ typeof (value_of p) +:+ " '"
                        +:+ template (value_of p) +:+ "'"))
  end.

(** *** The state-and-exception monad of the methods of [AppxDemoProject] *)

Definition M (A : Type) : Type :=
  AppxDemoProject -> AppxDemoProject * completion A.

Definition ret {A} (a : A) : M A := fun this => (this, Normal a).

Definition throw {A} (e : exn) : M A := fun this => (this, Throw e).

Definition bind {A B} (m : M A) (k : A -> M B) : M B :=
  fun this =>
    match m this with
    | (this', Normal a) => k a this'
    | (this', Throw e) => (this', Throw e)
    end.

Definition gets {A} (f : AppxDemoProject -> A) : M A :=
  fun this => (this, Normal (f this)).

Definition modify (f : AppxDemoProject -> AppxDemoProject) : M unit :=
  fun this => (f this, Normal tt).

(** A call into a collaborator that leaves [this] alone. *)
Definition lift {A} (c : completion A) : M A := fun this => (this, c).

Notation "'let!' x := m 'in' k" := (bind m (fun x => k))
  (at level 10, x name, m at level 100, k at level 200).
Notation "m ;; k" := (bind m (fun _ => k))
  (at level 100, k at level 200, right associativity).

Definition set_executingSequence (b : bool) (this : AppxDemoProject) :=
  {| context := context this;
     executionIntent := executionIntent this;
     executingSequence := b |}.

Definition set_executionIntent (i : INTENT) (this : AppxDemoProject) :=
  {| context := context this;
     executionIntent := i;
     executingSequence := executingSequence this |}.

(** *** [validateAppxDemoConfig] *)

(** [if (! value) invalidConfigKeys.push(key)] *)
Definition push_if_not (v : value) (key : string) (keys : list string)
  : list string :=
  if lnot v then keys ++ [key] else keys.

(** The answer of the two validators: [true], or an array of keys. *)
Inductive validationResponse :=
| ValidTrue
| InvalidKeys (keys : list string).

Definition validateAppxDemoConfig (appxDemoConfig : AppxDemoProjectConfig)
  : validationResponse :=
  let invalidConfigKeys := [] in
  let invalidConfigKeys := push_if_not (demoAlias appxDemoConfig) "demoAlias" invalidConfigKeys in
  let invalidConfigKeys := push_if_not (demoConfig appxDemoConfig) "demoConfig" invalidConfigKeys in
  let invalidConfigKeys := push_if_not (demoTitle appxDemoConfig) "demoTitle" invalidConfigKeys in
  let invalidConfigKeys := push_if_not (demoType appxDemoConfig) "demoType" invalidConfigKeys in
  let invalidConfigKeys := push_if_not (demoVersion appxDemoConfig) "demoVersion" invalidConfigKeys in
  let invalidConfigKeys := push_if_not (gitHubUrl appxDemoConfig) "gitHubUrl" invalidConfigKeys in
  let invalidConfigKeys := push_if_not (gitRemoteUri appxDemoConfig) "gitRemoteUri" invalidConfigKeys in
  let invalidConfigKeys := push_if_not (partnerAlias appxDemoConfig) "partnerAlias" invalidConfigKeys in
  let invalidConfigKeys := push_if_not (partnerName appxDemoConfig) "partnerName" invalidConfigKeys in
  let invalidConfigKeys := push_if_not (schemaVersion appxDemoConfig) "schemaVersion" invalidConfigKeys in
  if (0 <? Z.of_nat (length invalidConfigKeys))
  then InvalidKeys invalidConfigKeys
  else ValidTrue.

(** *** [validateDemoBuildConfig] *)

Definition typeof_sequenceGroups (f : sequenceGroupsField) : string :=
  match f with
  | GroupArray _ => "object"
  | NoArray v => typeof v
  end.

Definition validateDemoBuildConfig (demoBuildSequence : FalconCommandSequence)
  : completion validationResponse :=
  match sequenceGroups demoBuildSequence with
  | NoArray _ =>
      Throw (Error ("ERROR_INVALID_CONFIG: 'sequenceGroups' must be type 'array' not '"
                    +:+ typeof_sequenceGroups (sequenceGroups demoBuildSequence) +:+ "'"))
  | GroupArray groups =>
      if (Z.of_nat (length groups) <? 1)
      then Throw (Error "ERROR_INVALID_CONFIG: 'sequenceGroups' array must contain at least one member")
      else Normal ValidTrue
  end.

(** *** The methods of [AppxDemoProject]

    The collaborators that are imported from other modules are the
    variables of this section: Node's [path.join], [readConfigFile] of
    [config-helper], and the construction and execution of an
    [SfdxCommandSequence] of [sequence-helper]. *)

Section AppxDemoProject.

Variable path_join : string -> string -> string.
Variable FalconStatusReport : Type.
Variable readConfigFile : string -> value -> completion FalconCommandSequence.
Variable execute :
  FalconCommandSequence -> FalconSequenceContext -> completion FalconStatusReport.

(** What the constructor leaves in the member variables. *)
Definition constructed (c : AppxDemoProjectContext) : AppxDemoProject :=
  {| context := c;
     executionIntent := NOT_SPECIFIED;
     executingSequence := false |}.

(** [if (demoConfigOverride) appxDemoProjectConfig.demoConfig = demoConfigOverride] *)
Definition override_demoConfig (demoConfigOverride : string)
    (c : AppxDemoProjectConfig) : AppxDemoProjectConfig :=
  if decide (demoConfigOverride = "") then c
  else {| demoAlias := demoAlias c;
          demoConfig := JStr demoConfigOverride;
          demoTitle := demoTitle c;
          demoType := demoType c;
          demoVersion := demoVersion c;
          gitHubUrl := gitHubUrl c;
          gitRemoteUri := gitRemoteUri c;
          partnerAlias := partnerAlias c;
          partnerName := partnerName c;
          schemaVersion := schemaVersion c |}.

(** [resolve] from the existence check of the local config file on: that
    check, the completeness check of the project config, the override of
    [demoConfig], and the construction.  What the calls into [@salesforce/core]
    before it have answered is given: the path of the project, whether the
    local config file exists, and the two parsed configurations. *)
Definition resolve (projectPath : string) (localFalconConfigFile_exists : bool)
    (appxDemoProjectConfig : AppxDemoProjectConfig)
    (localConfig : AppxDemoLocalConfig) (demoConfigOverride : string)
  : completion AppxDemoProject :=
  if negb localFalconConfigFile_exists then
    Throw (Error ("ERROR_CONFIG_NOT_FOUND: File does not exist - "
                  +:+ path_join (path_join projectPath ".sfdx-falcon")
                                "sfdx-falcon-config.json"))
  else
    match validateAppxDemoConfig appxDemoProjectConfig with
    | InvalidKeys validationResponse =>
        Throw (Error ("ERROR_INVALID_CONFIG: Configuration for 'appxDemo' in sfdx-project.json has missing/invalid settings ("
                      +:+ join_comma validationResponse +:+ ")."))
    | ValidTrue =>
        Normal (constructed
                  {| path := projectPath;
                     config_project :=
                       override_demoConfig demoConfigOverride appxDemoProjectConfig;
                     config_local := localConfig |})
    end.

Definition getDefaultSequenceContext : M FalconSequenceContext :=
  gets (fun this =>
    {| ctx_devHubAlias := devHubAlias (config_local (context this));
       targetOrgAlias := JNull;
       targetIsScratchOrg := None;
       projectPath := path (context this);
       configPath := path_join (path (context this)) "demo-config";
       mdapiSourcePath := path_join (path (context this)) "mdapi-source";
       dataPath := path_join (path (context this)) "demo-data";
       logLevel := "error";
       sequenceObserver := JNull |}).

Definition set_target (alias : value) (isScratch : bool)
    (c : FalconSequenceContext) : FalconSequenceContext :=
  {| ctx_devHubAlias := ctx_devHubAlias c;
     targetOrgAlias := alias;
     targetIsScratchOrg := Some isScratch;
     projectPath := projectPath c;
     configPath := configPath c;
     mdapiSourcePath := mdapiSourcePath c;
     dataPath := dataPath c;
     logLevel := logLevel c;
     sequenceObserver := sequenceObserver c |}.

Definition setIntent (intent : INTENT) : M unit :=
  let! running := gets executingSequence in
  (if running
   then throw (Error "ERROR_SEQUENCE_RUNNING: There is already another sequence running.")
   else modify (set_executingSequence true)) ;;
  modify (set_executionIntent intent) ;;
  match intent with
  | DEPLOY_DEMO => ret tt
  | HEALTH_CHECK =>
      throw (Error "ERROR_INTENT_NOT_IMPLEMENTED: Your command uses an intent that is not yet implemented.")
  | REPAIR_PROJECT =>
      throw (Error "ERROR_INTENT_NOT_IMPLEMENTED: Your command uses an intent that is not yet implemented.")
  | VALIDATE_DEMO => ret tt
  | _ =>
      throw (Error "ERROR_UNKNOWN_INTENT: Your command did not specify a valid intent.")
  end.

(** [deployDemo], first part (to the end of the [switch]): the intent is
    set when none was, and the sequence context gets its target. *)
Definition deployDemo_context : M FalconSequenceContext :=
  let! intent := gets executionIntent in
  (if decide (intent = NOT_SPECIFIED) then setIntent DEPLOY_DEMO else ret tt) ;;
  let! sequenceContext := getDefaultSequenceContext in
  let! intent := gets executionIntent in
  let! local := gets (fun this => config_local (context this)) in
  match intent with
  | VALIDATE_DEMO =>
      ret (set_target (demoValidationOrgAlias local) true sequenceContext)
  | DEPLOY_DEMO =>
      ret (set_target (demoDeploymentOrgAlias local) false sequenceContext)
  | _ =>
      throw (Error "ERROR_INVALID_INTENT: The specified Execution Intent is not valid")
  end.

(** [if (typeof options.rebuildValidationOrg !== 'boolean')
        options.rebuildValidationOrg = true] *)
Definition coerce_rebuildValidationOrg (options : optionsField)
  : completion optionsField :=
  and_then (read_option options "rebuildValidationOrg") (fun rebuildValidationOrg =>
  if decide (typeof rebuildValidationOrg <> "boolean")
  then write_option options "rebuildValidationOrg" (JBool true)
  else Normal options).

(** The object literal [rebuildScratchOrgSequenceGroup]. *)
Definition rebuildScratchOrgSequenceGroup
    (sequenceContext : FalconSequenceContext)
    (demoBuildSequence : FalconCommandSequence)
  : completion FalconCommandSequenceGroup :=
  and_then (read_option (options demoBuildSequence) "scratchDefJson") (fun scratchDefJson =>
  let scratchDefJson := template scratchDefJson in
  Normal
    {| groupId := "rebuild-org";
       groupName := "Refresh Scratch Org";
       group_description :=
         "Deletes the current validation scratch org and creates a new one";
       sequenceSteps := [
         {| stepName := "Delete Old Demo Validation Org";
            step_description := "Deletes the current Demo Validation scratch org";
            action := "delete-scratch-org";
            step_options :=
              {[ "scratchOrgAlias" := JStr (template (targetOrgAlias sequenceContext));
                 "scratchDefJson" := JStr scratchDefJson ]} |};
         {| stepName := "Create New Demo Validation Org";
            step_description := "Creates a new Demo Validation scratch org";
            action := "create-scratch-org";
            step_options :=
              {[ "scratchOrgAlias" := JStr (template (targetOrgAlias sequenceContext));
                 "scratchDefJson" := JStr scratchDefJson ]} |}
       ] |}).

(** [sequenceGroups.unshift(group)]; on anything but an array the method
    does not exist. *)
Definition unshift (group : FalconCommandSequenceGroup)
    (demoBuildSequence : FalconCommandSequence)
  : completion FalconCommandSequence :=
  match sequenceGroups demoBuildSequence with
  | GroupArray groups =>
      Normal {| options := options demoBuildSequence;
                sequenceGroups := GroupArray (group :: groups) |}
  | NoArray _ =>
      Throw (TypeError "demoBuildSequence.sequenceGroups.unshift is not a function")
  end.

(** [deployDemo] from the coercion of [rebuildValidationOrg] to the
    insertion of the rebuild group.  The option is read again only when the
    intent is VALIDATE_DEMO, [&&] being lazy. *)
Definition deployDemo_rebuild (intent : INTENT)
    (sequenceContext : FalconSequenceContext)
    (demoBuildSequence : FalconCommandSequence)
  : completion FalconCommandSequence :=
  and_then (coerce_rebuildValidationOrg (options demoBuildSequence)) (fun coerced =>
  let demoBuildSequence :=
    {| options := coerced;
       sequenceGroups := sequenceGroups demoBuildSequence |} in
  if decide (intent = VALIDATE_DEMO)
  then
    and_then (read_option (options demoBuildSequence) "rebuildValidationOrg")
      (fun rebuildValidationOrg =>
    if decide (rebuildValidationOrg = JBool true)
    then
      and_then (rebuildScratchOrgSequenceGroup sequenceContext demoBuildSequence)
        (fun group =>
      unshift group demoBuildSequence)
    else Normal demoBuildSequence)
  else Normal demoBuildSequence).

(** [deployDemo], second part: the sequence is loaded, validated and
    completed. *)
Definition deployDemo_sequence (sequenceContext : FalconSequenceContext)
  : M FalconCommandSequence :=
  let! demoConfig := gets (fun this => demoConfig (config_project (context this))) in
  let! demoBuildSequence := lift (readConfigFile (configPath sequenceContext) demoConfig) in
  lift (validateDemoBuildConfig demoBuildSequence) ;;
  let! intent := gets executionIntent in
  lift (deployDemo_rebuild intent sequenceContext demoBuildSequence).

Definition deployDemo : M FalconStatusReport :=
  let! sequenceContext := deployDemo_context in
  let! demoBuildSequence := deployDemo_sequence sequenceContext in
  let! statusReport := lift (execute demoBuildSequence sequenceContext) in
  ret statusReport.

Definition validateDemo : M FalconStatusReport :=
  setIntent VALIDATE_DEMO ;;
  deployDemo.

(** The two public methods, and an instance after a series of calls to
    them. *)
Inductive call := CallValidateDemo | CallDeployDemo.

Definition invoke (c : call) : M FalconStatusReport :=
  match c with
  | CallValidateDemo => validateDemo
  | CallDeployDemo => deployDemo
  end.

Fixpoint after (calls : list call) (this : AppxDemoProject) : AppxDemoProject :=
  match calls with
  | [] => this
  | c :: rest => after rest (fst (invoke c this))
  end.

End AppxDemoProject.

(** *** Names for what the properties speak about *)

Definition SEQUENCE_RUNNING : exn :=
  Error "ERROR_SEQUENCE_RUNNING: There is already another sequence running.".

Definition INVALID_INTENT : exn :=
  Error "ERROR_INVALID_INTENT: The specified Execution Intent is not valid".

(** An instance with the given members. *)
Definition instance (c : AppxDemoProjectContext) (i : INTENT) (running : bool)
  : AppxDemoProject :=
  {| context := c; executionIntent := i; executingSequence := running |}.

(** The sequence context of a project with the given target. *)
Definition sequence_context (path_join : string -> string -> string)
    (c : AppxDemoProjectContext) (alias : value) (isScratch : bool)
  : FalconSequenceContext :=
  {| ctx_devHubAlias := devHubAlias (config_local c);
     targetOrgAlias := alias;
     targetIsScratchOrg := Some isScratch;
     projectPath := path c;
     configPath := path_join (path c) "demo-config";
     mdapiSourcePath := path_join (path c) "mdapi-source";
     dataPath := path_join (path c) "demo-data";
     logLevel := "error";
     sequenceObserver := JNull |}.

(** The value of the option [rebuildValidationOrg] as the specification
    reads it: the boolean that is configured, and [true] when the key is
    absent or holds no boolean. *)
Definition rebuildValidationOrg_coerced (options : gmap string value) : bool :=
  match options !! "rebuildValidationOrg" with
  | Some (JBool b) => b
  | _ => true
  end.

(** The collaborators as they answer while one call runs: the reader of the
    sequence file and the executor. *)
Record collaborators (FalconStatusReport : Type) := {
  reads : string -> value -> completion FalconCommandSequence;
  executes :
    FalconCommandSequence -> FalconSequenceContext -> completion FalconStatusReport
}.
Arguments reads {FalconStatusReport} _.
Arguments executes {FalconStatusReport} _.

(** A call that runs with the given collaborators. *)
Definition invoke_with (path_join : string -> string -> string)
    {FalconStatusReport : Type} (w : collaborators FalconStatusReport) (c : call)
  : M FalconStatusReport :=
  invoke path_join FalconStatusReport (reads w) (executes w) c.

(** An instance after a series of calls, each with the collaborators as
    they answer at its time. *)
Fixpoint after_each (path_join : string -> string -> string)
    {FalconStatusReport : Type}
    (calls : list (call * collaborators FalconStatusReport))
    (this : AppxDemoProject) : AppxDemoProject :=
  match calls with
  | [] => this
  | (c, w) :: rest => after_each path_join rest (fst (invoke_with path_join w c this))
  end.

(** The intent a first call leaves behind. *)
Definition intent_of_call (c : call) : INTENT :=
  match c with
  | CallValidateDemo => VALIDATE_DEMO
  | CallDeployDemo => DEPLOY_DEMO
  end.

(** The target alias [deployDemo] selects under an intent. *)
Definition alias_of_intent (local : AppxDemoLocalConfig) (i : INTENT) : value :=
  match i with
  | VALIDATE_DEMO => demoValidationOrgAlias local
  | _ => demoDeploymentOrgAlias local
  end.

(** The ten required settings of the project configuration, by name. *)
Definition required_fields (c : AppxDemoProjectConfig) : list (string * value) :=
  [ ("demoAlias", demoAlias c);
    ("demoConfig", demoConfig c);
    ("demoTitle", demoTitle c);
    ("demoType", demoType c);
    ("demoVersion", demoVersion c);
    ("gitHubUrl", gitHubUrl c);
    ("gitRemoteUri", gitRemoteUri c);
    ("partnerAlias", partnerAlias c);
    ("partnerName", partnerName c);
    ("schemaVersion", schemaVersion c) ].

(** A setting is missing (the key is absent) or empty (the empty string). *)
Definition missing_or_empty (v : value) : bool :=
  match v with
  | JUndefined => true
  | JStr s => if decide (s = "") then true else false
  | _ => false
  end.

(** The keys the specification wants reported. *)
Definition missing_keys (c : AppxDemoProjectConfig) : list string :=
  map fst (List.filter (fun kv => missing_or_empty (snd kv)) (required_fields c)).

(** Every setting that is present is a string, as [AppxDemoProjectConfig]
    declares. *)
Definition string_or_absent (v : value) : bool :=
  match v with
  | JUndefined | JStr _ => true
  | _ => false
  end.

Definition well_typed (c : AppxDemoProjectConfig) : bool :=
  forallb (fun kv => string_or_absent (snd kv)) (required_fields c).

(** Sample data: the project configuration of the comment at the end of
    the source file, a local configuration, and one group of one step. *)
Definition sample_config : AppxDemoProjectConfig :=
  {| demoAlias := JStr "MyAppxDemo";
     demoConfig := JStr "demo-config.json";
     demoTitle := JStr "My AppExchange Demo";
     demoType := JStr "ADK-SINGLE";
     demoVersion := JStr "0.0.1";
     gitHubUrl := JStr "https://github.com/my-org/my-repo";
     gitRemoteUri := JStr "https://github.com/my-org/my-repo.git";
     partnerAlias := JStr "AppyInc";
     partnerName := JStr "Appy Apps Incorporated";
     schemaVersion := JStr "0.0.1" |}.

(** The same without a title and with an empty GitHub URL. *)
Definition sample_config_incomplete : AppxDemoProjectConfig :=
  {| demoAlias := JStr "MyAppxDemo";
     demoConfig := JStr "demo-config.json";
     demoTitle := JUndefined;
     demoType := JStr "ADK-SINGLE";
     demoVersion := JStr "0.0.1";
     gitHubUrl := JStr "";
     gitRemoteUri := JStr "https://github.com/my-org/my-repo.git";
     partnerAlias := JStr "AppyInc";
     partnerName := JStr "Appy Apps Incorporated";
     schemaVersion := JStr "0.0.1" |}.

Definition sample_local : AppxDemoLocalConfig :=
  {| devHubAlias := JStr "DevHub";
     demoValidationOrgAlias := JStr "validation";
     demoDeploymentOrgAlias := JStr "deployment" |}.

Definition sample_group : FalconCommandSequenceGroup :=
  {| groupId := "install-packages";
     groupName := "Install Packages";
     group_description := "Installs the packages of the demo";
     sequenceSteps :=
       [ {| stepName := "Install Package";
            step_description := "Installs the first package";
            action := "install-package";
            step_options := {[ "packageName" := JStr "demo" ]} |} ] |}.

Definition sample_sequence (options : gmap string value) : FalconCommandSequence :=
  {| options := OptionsObject options; sequenceGroups := GroupArray [sample_group] |}.

(** The same sequence as a file without the key [options] holds it. *)
Definition sample_sequence_without_options : FalconCommandSequence :=
  {| options := NoObject PUndefined; sequenceGroups := GroupArray [sample_group] |}.

Definition slash_join (a b : string) : string := a +:+ "/" +:+ b.

Definition sample_context : FalconSequenceContext :=
  sequence_context slash_join
    {| path := "/home/demo/project";
       config_project := sample_config;
       config_local := sample_local |}
    (JStr "validation") true.

(** The error [resolve] raises for a list of keys. *)
Definition INVALID_CONFIG (keys : list string) : exn :=
  Error ("ERROR_INVALID_CONFIG: Configuration for 'appxDemo' in sfdx-project.json has missing/invalid settings ("
         +:+ join_comma keys +:+ ").").

Definition UNKNOWN_INTENT : exn :=
  Error "ERROR_UNKNOWN_INTENT: Your command did not specify a valid intent.".

Definition INTENT_NOT_IMPLEMENTED : exn :=
  Error "ERROR_INTENT_NOT_IMPLEMENTED: Your command uses an intent that is not yet implemented.".

(** The values that [!] takes for missing. *)
Definition falsy_values : list value :=
  [JUndefined; JNull; JBool false; JNum NaN; JNum (Num 0); JStr ""].

(** The keys of the settings that are falsy, in the order of the checks. *)
Definition falsy_keys (c : AppxDemoProjectConfig) : list string :=
  map fst (List.filter (fun kv => lnot (snd kv)) (required_fields c)).

(** The parameters of the two steps of the rebuild group. *)
Definition rebuild_parameters (alias : value) (opts : gmap string value)
  : gmap string value :=
  {[ "scratchOrgAlias" := JStr (template alias);
     "scratchDefJson" := JStr (template (get opts "scratchDefJson")) ]}.

(** The rebuild group for a target alias and the options of a sequence. *)
Definition rebuild_group (alias : value) (opts : gmap string value)
  : FalconCommandSequenceGroup :=
  {| groupId := "rebuild-org";
     groupName := "Refresh Scratch Org";
     group_description :=
       "Deletes the current validation scratch org and creates a new one";
     sequenceSteps :=
       [ {| stepName := "Delete Old Demo Validation Org";
            step_description := "Deletes the current Demo Validation scratch org";
            action := "delete-scratch-org";
            step_options := rebuild_parameters alias opts |};
         {| stepName := "Create New Demo Validation Org";
            step_description := "Creates a new Demo Validation scratch org";
            action := "create-scratch-org";
            step_options := rebuild_parameters alias opts |} ] |}.

(** A reader that finds one file, at one place. *)
Definition reader_of (rootFolder : string) (filename : value)
    (content : FalconCommandSequence)
  : string -> value -> completion FalconCommandSequence :=
  fun root file =>
    if decide (root = rootFolder /\ file = filename) then Normal content
    else Throw (Error "ENOENT").

(** An executor that reports the number of groups it was given. *)
Definition count_groups (seq : FalconCommandSequence) (ctx : FalconSequenceContext)
  : completion nat :=
  match sequenceGroups seq with
  | GroupArray groups => Normal (length groups)
  | NoArray _ => Throw (TypeError "sequenceGroups is not iterable")
  end.


Definition sample_project : AppxDemoProjectContext :=
  {| path := "/home/demo/project";
     config_project := sample_config;
     config_local := sample_local |}.

(** The collaborators of the sample project while its sequence file holds
    [content]: the reader finds it, the executor counts the groups. *)
Definition sample_collaborators (content : FalconCommandSequence)
  : collaborators nat :=
  {| reads := reader_of "/home/demo/project/demo-config" (JStr "demo-config.json")
                content;
     executes := count_groups |}.

(** Collaborators in whose time the sequence file is gone. *)
Definition file_gone : collaborators nat :=
  {| reads := fun _ _ => Throw (Error "ENOENT"); executes := count_groups |}.

End Adk.

(* ===================================================================== *)
(** ** helpers/git-helper.ts *)
(* ===================================================================== *)

Module Git.

(** *** Regular expressions

    The patterns of the file, matched with derivatives.  Both patterns end
    in [$] and carry no flag, so a match always runs to the end of the
    subject: [exec_to_end] looks for the leftmost index from which the rest
    of the subject is in the language. *)

Inductive regex :=
| Never
| Empty
| Class (p : ascii -> bool)
| Cat (r1 r2 : regex)
| Or (r1 r2 : regex)
| Star (r : regex).

Fixpoint nullable (r : regex) : bool :=
  match r with
  | Never => false
  | Empty => true
  | Class _ => false
  | Cat r1 r2 => nullable r1 && nullable r2
  | Or r1 r2 => nullable r1 || nullable r2
  | Star _ => true
  end.

Fixpoint deriv (c : ascii) (r : regex) : regex :=
  match r with
  | Never => Never
  | Empty => Never
  | Class p => if p c then Empty else Never
  | Cat r1 r2 =>
      if nullable r1
      then Or (Cat (deriv c r1) r2) (deriv c r2)
      else Cat (deriv c r1) r2
  | Or r1 r2 => Or (deriv c r1) (deriv c r2)
  | Star r1 => Cat (deriv c r1) (Star r1)
  end.

Fixpoint matches (r : regex) (s : string) : bool :=
  match s with
  | EmptyString => nullable r
  | String c rest => matches (deriv c r) rest
  end.

(** [/r$/.exec(s)]: [None] is [null], [Some m] is the array whose element
    [0] is [m]. *)
Fixpoint exec_to_end (r : regex) (s : string) : option string :=
  if matches r s then Some s
  else match s with
       | EmptyString => None
       | String _ rest => exec_to_end r rest
       end.

Definition chr (c : ascii) : regex := Class (fun x => if decide (x = c) then true else false).

Fixpoint lit (s : string) : regex :=
  match s with
  | EmptyString => Empty
  | String c rest => Cat (chr c) (lit rest)
  end.

Definition plus (r : regex) : regex := Cat r (Star r).

(** [\w]: an ASCII letter, a digit or the underscore. *)
Definition is_word (c : ascii) : bool :=
  let n := nat_of_ascii c in
  ((Nat.leb 48 n && Nat.leb n 57) || (Nat.leb 65 n && Nat.leb n 90)
   || (Nat.leb 97 n && Nat.leb n 122) || Nat.eqb n 95)%bool.

(** [const repoNameRegEx = /\/(\w|-)+\.git\/*$/] *)
Definition repoNameRegEx : regex :=
  Cat (chr "/") (Cat (plus (Or (Class is_word) (chr "-")))
                     (Cat (lit ".git") (Star (chr "/")))).

(** *** The string methods [getRepoNameFromUri] uses *)

(** [s.lastIndexOf(c)], counted from [i] for the first character of [s];
    [-1] when [c] does not occur. *)
Fixpoint lastIndexOf_from (c : ascii) (s : string) (i : Z) : Z :=
  match s with
  | EmptyString => -1
  | String a rest =>
      let later := lastIndexOf_from c rest (i + 1) in
      if 0 <=? later then later
      else if decide (a = c) then i else -1
  end.

Definition lastIndexOf (s : string) (c : ascii) : Z := lastIndexOf_from c s 0.

Definition clamp (len x : Z) : Z := Z.max 0 (Z.min x len).

(** [s.substring(a, b)]: both indices are clamped to the string and swapped
    when they come in the wrong order. *)
Definition substring (s : string) (a b : Z) : string :=
  let len := Z.of_nat (String.length s) in
  let a := clamp len a in
  let b := clamp len b in
  let lo := Z.min a b in
  let hi := Z.max a b in
  String.substring (Z.to_nat lo) (Z.to_nat (hi - lo)) s.

(** [s.substr(a)] for [a >= 0]: the rest of the string from index [a]. *)
Definition substr (s : string) (a : nat) : string :=
  String.substring a (String.length s - a) s.

(** *** [getRepoNameFromUri] *)

Definition getRepoNameFromUri (gitRemoteUri : value) : completion string :=
  match gitRemoteUri with
  | JStr gitRemoteUri =>
      match exec_to_end repoNameRegEx gitRemoteUri with
      | None =>
          (* [null[0]] *)
          Throw (TypeError "Cannot read property '0' of null")
      | Some repoName =>
          let repoName := substring repoName 0 (lastIndexOf repoName ".") in
          let repoName := substr repoName 1 in
          if decide (repoName = "")
          then Throw (Error "ERROR_UNREADABLE_REPO_NAME")
          else Normal repoName
      end
  | _ => Throw (TypeError "ERROR_UNEXPECTED_TYPE: String expected for gitRemoteUri")
  end.

(** *** The shell

    A call into shelljs (or into [waitASecond] of [async-helper]) is an
    event; a program is a tree of events.  Every synchronous shelljs call
    answers a [ShellString], that is an exit code and the two streams. *)

Inductive shellCall :=
| Cd (dir : string)
| Pwd
| Mkdir (flags dir : string)
| Exec (command : string)
| ExecAsync (command : string)
| WaitASecond (seconds : number).

#[export] Instance shellCall_eq_dec : EqDecision shellCall.
Proof. solve_decision. Defined.

Record ShellString := {
  code : Z;
  stdout : string;
  stderr : string
}.

Inductive Shell (A : Type) :=
| Ret (a : A)
| Raise (e : exn)
| Call (c : shellCall) (k : ShellString -> Shell A).
Arguments Ret {A} a.
Arguments Raise {A} e.
Arguments Call {A} c k.

Fixpoint andThen {A B} (m : Shell A) (k : A -> Shell B) : Shell B :=
  match m with
  | Ret a => k a
  | Raise e => Raise e
  | Call c next => Call c (fun r => andThen (next r) k)
  end.

(** [try { body } catch (e) { handler }] *)
Fixpoint try_catch {A} (body : Shell A) (handler : exn -> Shell A) : Shell A :=
  match body with
  | Ret a => Ret a
  | Raise e => handler e
  | Call c next => Call c (fun r => try_catch (next r) handler)
  end.

Local Notation "m ;; k" := (andThen m (fun _ => k))
  (at level 100, k at level 200, right associativity).

(** [shell.config.fatal = true]: a synchronous shelljs call that ends with
    an exit code other than 0 throws. *)
Definition fatal (c : shellCall) : Shell ShellString :=
  Call c (fun r => if code r =? 0 then Ret r else Raise (Error (stderr r))).

(** The world outside: what each call answers, given the calls made so
    far. *)
Definition oracle := list shellCall -> shellCall -> ShellString.

(** Running a program against an oracle gives the calls it made, in order,
    and its completion. *)
Fixpoint run {A} (p : Shell A) (w : oracle) (log : list shellCall)
  : list shellCall * completion A :=
  match p with
  | Ret a => (log, Normal a)
  | Raise e => (log, Throw e)
  | Call c k => run (k (w log c)) w (log ++ [c])
  end.

(** *** The provisioning operations *)

Section Provisioner.

(** Node's [path.normalize] and [path.resolve]. *)
Variable path_normalize : string -> string.
Variable path_resolve : string -> string.

Definition gitClone (gitRemoteUri targetDirectory : value) : Shell unit :=
  (* [targetDirectory:string='.'] *)
  let targetDirectory :=
    match targetDirectory with JUndefined => JStr "." | v => v end in
  match gitRemoteUri, targetDirectory with
  | JStr gitRemoteUri, JStr targetDirectory =>
      if decide (trim targetDirectory = "") then Raise (Error "ERROR_INVALID_VALUE")
      else
        let targetDirectory := path_resolve (path_normalize targetDirectory) in
        try_catch
          (fatal (Cd targetDirectory) ;; fatal Pwd ;; Ret tt)
          (fun cdError =>
             try_catch
               (fatal (Mkdir "-p" targetDirectory) ;; Ret tt)
               (fun mkdirError => Raise (Error "ERROR_INVALID_TARGET_DIR")) ;;
             try_catch
               (fatal (Cd targetDirectory) ;; Ret tt)
               (fun cdError2 => Raise (Error "ERROR_NO_TARGET_DIR"))) ;;
        try_catch
          (fatal (Exec ("git clone " +:+ gitRemoteUri)) ;; Ret tt)
          (fun gitCloneError =>
             Raise (Error ("Destination path '" +:+ targetDirectory
                           +:+ "' already exists and is not an empty directory.")))
  | _, _ => Raise (TypeError "ERROR_UNEXPECTED_TYPE")
  end.

End Provisioner.

(** [typeof v !== 'string' || v === ''] *)
Definition not_string_or_empty (v : value) : bool :=
  match v with
  | JStr s => if decide (s = "") then true else false
  | _ => true
  end.

(** The string behind a value that passed [not_string_or_empty]. *)
Definition string_of (v : value) : string :=
  match v with JStr s => s | _ => "" end.

Definition ERROR_INVALID_TYPE (parameter : string) (v : value) : exn :=
  TypeError ("ERROR_INVALID_TYPE: Expected non-empty string for " +:+ parameter
             +:+ " but got " +:+ typeof v).

Definition gitInit (targetDirectory : value) : Shell unit :=
  if not_string_or_empty targetDirectory
  then Raise (ERROR_INVALID_TYPE "targetDirectory" targetDirectory)
  else
    fatal (Cd (string_of targetDirectory)) ;;
    fatal (Exec "git init") ;;
    Ret tt.

Definition gitAddAndCommit (targetDirectory commitMessage : value) : Shell unit :=
  if not_string_or_empty targetDirectory
  then Raise (ERROR_INVALID_TYPE "targetDirectory" targetDirectory)
  else if not_string_or_empty commitMessage
  then Raise (ERROR_INVALID_TYPE "commitMessage" commitMessage)
  else
    fatal (Cd (string_of targetDirectory)) ;;
    fatal (Exec "git add -A") ;;
    fatal (Exec ("git commit -m " +:+ dquote +:+ string_of commitMessage +:+ dquote)) ;;
    Ret tt.

Definition gitRemoteAddOrigin (targetDirectory gitRemoteUri : value) : Shell unit :=
  if not_string_or_empty targetDirectory
  then Raise (ERROR_INVALID_TYPE "targetDirectory" targetDirectory)
  else if not_string_or_empty gitRemoteUri
  then Raise (ERROR_INVALID_TYPE "gitRemoteUri" gitRemoteUri)
  else
    fatal (Cd (string_of targetDirectory)) ;;
    fatal (Exec ("git remote add origin " +:+ string_of gitRemoteUri)) ;;
    Ret tt.

(** *** The two probes of the remote *)

(** The command line both probes run. *)
Definition ls_remote (gitRemoteUri : string) : string :=
  "git ls-remote --exit-code -h " +:+ gitRemoteUri.

Definition isGitRemoteEmpty (gitRemoteUri : value) : Shell bool :=
  match gitRemoteUri with
  | JStr gitRemoteUri =>
      try_catch
        (fatal (Exec (ls_remote gitRemoteUri)) ;; Ret true)
        (fun err => Ret false)
  | _ => Raise (TypeError "ERROR_UNEXPECTED_TYPE")
  end.

(** The object the asynchronous probe settles its promise with. *)
Record returnObject := {
  ro_code : Z;
  ro_stdout : string;
  ro_stderr : string;
  message : string;
  resolve : bool
}.

(** How the promise settles when no exception was thrown: [resolve(o)] or
    [reject(o)]. *)
Inductive settled :=
| Resolved (o : returnObject)
| Rejected (o : returnObject).

(** The body of the callback of [shell.exec] up to the end of the
    [switch]. *)
Definition probe_result (r : ShellString) : returnObject :=
  let message_resolve :=
    if code r =? 0 then ("Remote repository found", true)
    else if code r =? 2 then ("Remote repository contains no commits", false)
    else if code r =? 128 then ("Remote repository not found", false)
    else ("Unexpected Error", false) in
  {| ro_code := code r;
     ro_stdout := stdout r;
     ro_stderr := stderr r;
     message := fst message_resolve;
     resolve := snd message_resolve |}.

(** [waitSeconds:number=0]: [None] is an argument left out.  An exception
    thrown by the [async] function is a rejection of its promise. *)
Definition isGitRemoteEmptyAsync (gitRemoteUri : value) (waitSeconds : option number)
  : Shell settled :=
  let waitSeconds := default (Num 0) waitSeconds in
  match gitRemoteUri with
  | JStr gitRemoteUri =>
      if isNaN waitSeconds then Raise (TypeError "ERROR_UNEXPECTED_TYPE")
      else
        (if gt_zero waitSeconds
         then Call (WaitASecond waitSeconds) (fun _ => Ret tt)
         else Ret tt) ;;
        Call (ExecAsync (ls_remote gitRemoteUri))
             (fun r =>
                let returnObject := probe_result r in
                if resolve returnObject
                then Ret (Resolved returnObject)
                else Ret (Rejected returnObject))
  | _ => Raise (TypeError "ERROR_UNEXPECTED_TYPE")
  end.

(** *** [isGitRemoteReadable] *)

Definition isGitRemoteReadable (gitRemoteUri : value) : Shell bool :=
  match gitRemoteUri with
  | JStr gitRemoteUri =>
      try_catch
        (fatal (Exec ("git ls-remote -h " +:+ gitRemoteUri)) ;; Ret true)
        (fun err => Ret false)
  | _ => Raise (TypeError "ERROR_UNEXPECTED_TYPE")
  end.

(** *** [isGitUriValid]

    [const gitUriRegEx =
       /(^(git|ssh|http(s)?)|(git@[\w\.]+))(:(\/\/)?)([\w\.@\:\/\-~]+)(\.git)(\/)?$/]

    The pattern is an alternative of two heads, followed by one rest that
    runs to the end of the subject.  Only the first head carries [^]. *)

(** [r?] *)
Definition opt (r : regex) : regex := Or r Empty.

(** [[\w\.]] *)
Definition is_host (c : ascii) : bool :=
  is_word c || (if decide (c = "."%char) then true else false).

(** [[\w\.@\:\/\-~]] *)
Definition is_path (c : ascii) : bool :=
  is_word c
  || (if decide (c = "."%char) then true else false)
  || (if decide (c = "@"%char) then true else false)
  || (if decide (c = ":"%char) then true else false)
  || (if decide (c = "/"%char) then true else false)
  || (if decide (c = "-"%char) then true else false)
  || (if decide (c = "~"%char) then true else false).

(** [(git|ssh|http(s)?)], the head that [^] ties to the start. *)
Definition gitUri_scheme : regex :=
  Or (lit "git") (Or (lit "ssh") (Cat (lit "http") (opt (chr "s")))).

(** [(git@[\w\.]+)], the head that may start anywhere. *)
Definition gitUri_user : regex :=
  Cat (lit "git@") (plus (Class is_host)).

(** [(:(\/\/)?)([\w\.@\:\/\-~]+)(\.git)(\/)?] *)
Definition gitUri_rest : regex :=
  Cat (Cat (chr ":") (opt (lit "//")))
      (Cat (plus (Class is_path))
           (Cat (lit ".git") (opt (chr "/")))).

(** [gitUriRegEx.test(s)]: a match from the start with the first head, or a
    match from some index with the second. *)
Definition gitUriRegEx_test (s : string) : bool :=
  matches (Cat gitUri_scheme gitUri_rest) s
  || match exec_to_end (Cat gitUri_user gitUri_rest) s with
     | Some _ => true
     | None => false
     end.

Definition isGitUriValid (gitRemoteUri : value) : completion bool :=
  match gitRemoteUri with
  | JStr gitRemoteUri => Normal (gitUriRegEx_test gitRemoteUri)
  | _ => Throw (TypeError "ERROR_UNEXPECTED_TYPE")
  end.

(** Whether [s] ends in [suffix]. *)
Definition ends_with (suffix s : string) : Prop :=
  exists front, s = front +:+ suffix.

(** *** Names for what the properties speak about *)

(** The verdicts of the specification and its table from exit codes. *)
Inductive RemoteRepositoryVerdict :=
| ReachableWithHistory
| ReachableEmpty
| Unreachable
| IndeterminateError.

#[export] Instance RemoteRepositoryVerdict_eq_dec : EqDecision RemoteRepositoryVerdict.
Proof. solve_decision. Defined.

Definition verdict_of_code (exit_code : Z) : RemoteRepositoryVerdict :=
  match exit_code with
  | 0 => ReachableWithHistory
  | 2 => ReachableEmpty
  | 128 => Unreachable
  | _ => IndeterminateError
  end.

Definition verdict_message (v : RemoteRepositoryVerdict) : string :=
  match v with
  | ReachableWithHistory => "Remote repository found"
  | ReachableEmpty => "Remote repository contains no commits"
  | Unreachable => "Remote repository not found"
  | IndeterminateError => "Unexpected Error"
  end.

(** A world in which every call answers [r]. *)
Definition answering (r : ShellString) : oracle := fun _ _ => r.

(** A probe that ends with the given exit code and nothing on its streams. *)
Definition exit_with (exit_code : Z) : ShellString :=
  {| code := exit_code; stdout := ""; stderr := "" |}.

(** Whether a promise was resolved. *)
Definition resolved (outcome : completion settled) : bool :=
  match outcome with
  | Normal (Resolved _) => true
  | _ => false
  end.

(** What the blocking and the asynchronous probe answer when the probe
    command ends as [r] says. *)
Definition blocking (gitRemoteUri : string) (r : ShellString) : completion bool :=
  snd (run (isGitRemoteEmpty (JStr gitRemoteUri)) (answering r) []).

Definition nonblocking (gitRemoteUri : string) (r : ShellString)
  : completion settled :=
  snd (run (isGitRemoteEmptyAsync (JStr gitRemoteUri) None) (answering r) []).

(** Every character of [s] satisfies [p]. *)
Fixpoint all (p : ascii -> bool) (s : string) : bool :=
  match s with
  | EmptyString => true
  | String c rest => p c && all p rest
  end.

(** A character of a repository name: [\w] or the hyphen. *)
Definition is_name (c : ascii) : bool :=
  is_word c || (if decide (c = "-"%char) then true else false).

Definition is_slash (c : ascii) : bool :=
  if decide (c = "/"%char) then true else false.

(** [a] is another character than [c]. *)
Definition is_not (c : ascii) (a : ascii) : bool :=
  if decide (a = c) then false else true.

(** The end of a URI that the specification speaks of: [/<name>.git] and
    any number of slashes behind it. *)
Definition trailing_segment (name slashes : string) : string :=
  "/" +:+ name +:+ ".git" +:+ slashes.

(** A parameter that is not a string, or is the empty string, in the words
    of the specification. *)
Definition unusable (v : value) : Prop :=
  typeof v <> "string" \/ v = JStr "".

(** The white space and the line terminators of ECMAScript, which are what
    [trim] strips, each as the bytes of its encoding: TAB, LF, VT, FF, CR,
    SP; U+00A0; U+1680; U+2000 to U+200A; U+2028 and U+2029; U+202F;
    U+205F; U+3000; U+FEFF. *)
Definition white_space : list string :=
  map bytes
    [ [9]; [10]; [11]; [12]; [13]; [32];
      [194; 160];
      [225; 154; 128];
      [226; 128; 128]; [226; 128; 129]; [226; 128; 130]; [226; 128; 131];
      [226; 128; 132]; [226; 128; 133]; [226; 128; 134]; [226; 128; 135];
      [226; 128; 136]; [226; 128; 137]; [226; 128; 138];
      [226; 128; 168]; [226; 128; 169];
      [226; 128; 175];
      [226; 129; 159];
      [227; 128; 128];
      [239; 187; 191] ]%nat.

(** A string that is empty or blank: nothing but white space and line
    terminators. *)
Definition only_white_space (s : string) : Prop :=
  exists parts,
    Forall (fun part => In part white_space) parts
    /\ s = fold_right String.append "" parts.

(** A stand-in for [path.resolve] in a process whose working directory is
    [cwd]: an absolute path stays, a relative one is put under [cwd]. *)
Definition resolve_in (cwd path : string) : string :=
  match path with
  | String "/" _ => path
  | _ => cwd +:+ "/" +:+ path
  end.

(** A world in which every command succeeds silently. *)
Definition all_succeed : oracle := answering (exit_with 0).

Definition INVALID_TARGET_DIR : exn := Error "ERROR_INVALID_TARGET_DIR".
Definition NO_TARGET_DIR : exn := Error "ERROR_NO_TARGET_DIR".
Definition DESTINATION_NOT_EMPTY (targetDirectory : string) : exn :=
  Error ("Destination path '" +:+ targetDirectory
         +:+ "' already exists and is not an empty directory.").

(** The four schemes of the first head of [gitUriRegEx]. *)
Definition schemes : list string := ["git"; "ssh"; "http"; "https"].

(** A Git URI in its parts: what is in front of the head, the head, the
    separator, the path, and what follows [.git]. *)
Definition git_uri (front head separator path tail : string) : string :=
  front +:+ head +:+ separator +:+ path +:+ ".git" +:+ tail.

(** The parts as the pattern wants them, the head aside. *)
Definition well_formed_rest (separator path tail : string) : Prop :=
  (separator = ":" \/ separator = "://")
  /\ path <> "" /\ all is_path path = true
  /\ (tail = "" \/ tail = "/").

(** The head [git@<host>]. *)
Definition user_head (head : string) : Prop :=
  exists host, head = "git@" +:+ host /\ host <> "" /\ all is_host host = true.

(** A world in which one command fails and every other one succeeds. *)
Definition failing (bad : shellCall) : oracle :=
  fun _ c => if decide (c = bad) then exit_with 1 else exit_with 0.

(** The command lines of the wrappers. *)
Definition git_commit (commitMessage : string) : shellCall :=
  Exec ("git commit -m " +:+ dquote +:+ commitMessage +:+ dquote).

Definition git_remote_add (gitRemoteUri : string) : shellCall :=
  Exec ("git remote add origin " +:+ gitRemoteUri).

End Git.

(* ===================================================================== *)
(** ** Properties of the execution intent and of the sequence assembly *)
(* ===================================================================== *)

Import Adk.

Section AdkProperties.

Variable path_join : string -> string -> string.
Variable FalconStatusReport : Type.

Lemma instance_eta this :
  this = instance (context this) (executionIntent this) (executingSequence this).
Proof. by destruct this. Qed.

(** C5.  While the in-progress flag is set, [setIntent] throws
    ERROR_SEQUENCE_RUNNING whichever intent is asked for, and it changes
    nothing.  While the flag is clear, [setIntent] leaves the instance with
    the flag set and with the requested intent, and it returns normally for
    the two intents that are implemented. *)
Theorem setIntent_guard (intent : INTENT) (c : AppxDemoProjectContext) (i0 : INTENT) :
  setIntent intent (instance c i0 true) = (instance c i0 true, Throw SEQUENCE_RUNNING)
  /\ fst (setIntent intent (instance c i0 false)) = instance c intent true
  /\ setIntent VALIDATE_DEMO (instance c i0 false)
     = (instance c VALIDATE_DEMO true, Normal tt)
  /\ setIntent DEPLOY_DEMO (instance c i0 false)
     = (instance c DEPLOY_DEMO true, Normal tt).
Proof.
  repeat split; try reflexivity.
  by destruct intent.
Qed.

(** On a fresh instance the guard of [deployDemo] sets DEPLOY_DEMO. *)
Lemma deployDemo_context_fresh (c : AppxDemoProjectContext) :
  deployDemo_context path_join (instance c NOT_SPECIFIED false)
  = (instance c DEPLOY_DEMO true,
     Normal (sequence_context path_join c
               (demoDeploymentOrgAlias (config_local c)) false)).
Proof. reflexivity. Qed.

(** C3.  [deployDemo] sets the intent to DEPLOY_DEMO when the instance has
    none, and then targets the deployment org, not as a scratch org.  With
    VALIDATE_DEMO already active it keeps that intent and targets the
    validation org as a scratch org; with DEPLOY_DEMO already active it
    targets the deployment org, not as a scratch org; in both cases the
    members of the instance stay as they were.  With HEALTH_CHECK or
    REPAIR_PROJECT active it throws ERROR_INVALID_INTENT. *)
Theorem deployDemo_honours_intent (c : AppxDemoProjectContext) (running : bool) :
  deployDemo_context path_join (instance c NOT_SPECIFIED false)
  = (instance c DEPLOY_DEMO true,
     Normal (sequence_context path_join c
               (demoDeploymentOrgAlias (config_local c)) false))
  /\ deployDemo_context path_join (instance c VALIDATE_DEMO running)
     = (instance c VALIDATE_DEMO running,
        Normal (sequence_context path_join c
                  (demoValidationOrgAlias (config_local c)) true))
  /\ deployDemo_context path_join (instance c DEPLOY_DEMO running)
     = (instance c DEPLOY_DEMO running,
        Normal (sequence_context path_join c
                  (demoDeploymentOrgAlias (config_local c)) false))
  /\ deployDemo_context path_join (instance c HEALTH_CHECK running)
     = (instance c HEALTH_CHECK running, Throw INVALID_INTENT)
  /\ deployDemo_context path_join (instance c REPAIR_PROJECT running)
     = (instance c REPAIR_PROJECT running, Throw INVALID_INTENT).
Proof. repeat split. Qed.

(** The coercion of [rebuildValidationOrg] writes the coerced boolean into
    the options when these are an object. *)
Lemma coerce_rebuildValidationOrg_insert (opts : gmap string value) :
  coerce_rebuildValidationOrg (OptionsObject opts)
  = Normal (OptionsObject
              (<["rebuildValidationOrg" := JBool (rebuildValidationOrg_coerced opts)]> opts)).
Proof.
  unfold coerce_rebuildValidationOrg, rebuildValidationOrg_coerced, read_option,
    and_then, get.
  destruct (opts !! "rebuildValidationOrg") as [[| |b| | |]|] eqn:E; simpl;
    try reflexivity.
  do 2 f_equal. symmetry. by apply insert_id.
Qed.

(** Without an object under [options] the coercion throws a TypeError: at
    the read when the key is absent or holds [null], at the write when it
    holds a boolean, a number or a string. *)
Lemma coerce_rebuildValidationOrg_NoObject (p : primitive) :
  exists e, exn_class e = TypeErrorClass
            /\ coerce_rebuildValidationOrg (NoObject p) = Throw e.
Proof. destruct p; eexists; (split; [|reflexivity]); reflexivity. Qed.

Lemma get_insert_eq (opts : gmap string value) k v :
  get (<[k := v]> opts) k = v.
Proof. unfold get. by rewrite lookup_insert_eq. Qed.

Lemma get_insert_ne (opts : gmap string value) k k' v :
  k <> k' -> get (<[k := v]> opts) k' = get opts k'.
Proof. intros. unfold get. by rewrite lookup_insert_ne. Qed.

(** A sequence whose groups are a non-empty array passes the validation,
    whatever it holds under [options]. *)
Lemma validateDemoBuildConfig_nonempty fields g groups :
  validateDemoBuildConfig
    {| options := fields; sequenceGroups := GroupArray (g :: groups) |}
  = Normal ValidTrue.
Proof.
  unfold validateDemoBuildConfig. cbn [sequenceGroups].
  destruct (Z.ltb_spec (Z.of_nat (length (g :: groups))) 1) as [H|H];
    [|reflexivity].
  cbn [length] in H. lia.
Qed.

(** A sequence without groups, or whose [sequenceGroups] is no array, does
    not reach the assembly: the validation throws. *)
Lemma deployDemo_sequence_invalid
    (c : AppxDemoProjectContext) (intent : INTENT) (running : bool)
    (sequenceContext : FalconSequenceContext) (fields : optionsField) (v : value) :
  (exists e, deployDemo_sequence
               (fun _ _ => Normal {| options := fields; sequenceGroups := GroupArray [] |})
               sequenceContext (instance c intent running)
             = (instance c intent running, Throw e))
  /\ (exists e, deployDemo_sequence
                  (fun _ _ => Normal {| options := fields; sequenceGroups := NoArray v |})
                  sequenceContext (instance c intent running)
                = (instance c intent running, Throw e)).
Proof. split; by eexists. Qed.

(** The object literal of the rebuild group, evaluated on options that are
    an object. *)
Lemma rebuildScratchOrgSequenceGroup_object
    (sequenceContext : FalconSequenceContext) (opts : gmap string value) (b : bool)
    (fields : sequenceGroupsField) :
  rebuildScratchOrgSequenceGroup sequenceContext
    {| options := OptionsObject (<["rebuildValidationOrg" := JBool b]> opts);
       sequenceGroups := fields |}
  = Normal (rebuild_group (targetOrgAlias sequenceContext) opts).
Proof.
  unfold rebuildScratchOrgSequenceGroup, rebuild_group, rebuild_parameters.
  cbn [options read_option and_then]. by rewrite get_insert_ne.
Qed.

(** The assembly on a loaded sequence whose options are an object and whose
    groups are an array. *)
Lemma deployDemo_rebuild_array (intent : INTENT)
    (sequenceContext : FalconSequenceContext)
    (opts : gmap string value) (groups : list FalconCommandSequenceGroup) :
  deployDemo_rebuild intent sequenceContext
    {| options := OptionsObject opts; sequenceGroups := GroupArray groups |}
  = Normal {| options :=
                OptionsObject
                  (<["rebuildValidationOrg" := JBool (rebuildValidationOrg_coerced opts)]> opts);
              sequenceGroups :=
                GroupArray
                  (if bool_decide (intent = VALIDATE_DEMO)
                      && rebuildValidationOrg_coerced opts
                   then rebuild_group (targetOrgAlias sequenceContext) opts :: groups
                   else groups) |}.
Proof.
  unfold deployDemo_rebuild. cbn [options sequenceGroups].
  rewrite coerce_rebuildValidationOrg_insert. cbn [and_then options sequenceGroups].
  destruct (decide (intent = VALIDATE_DEMO)) as [->|Hne].
  - cbn [read_option and_then]. rewrite get_insert_eq.
    rewrite bool_decide_eq_true_2 by done. cbn [andb].
    destruct (rebuildValidationOrg_coerced opts).
    + destruct (decide (JBool true = JBool true)) as [_|Hn]; [|done].
      by rewrite rebuildScratchOrgSequenceGroup_object.
    + destruct (decide (JBool false = JBool true)) as [Hb|_]; [discriminate|].
      reflexivity.
  - by rewrite bool_decide_eq_false_2.
Qed.

(** The assembly on a loaded sequence that holds no object under
    [options]: a TypeError, under every intent. *)
Lemma deployDemo_rebuild_NoObject (intent : INTENT)
    (sequenceContext : FalconSequenceContext)
    (p : primitive) (fields : sequenceGroupsField) :
  exists e, exn_class e = TypeErrorClass
            /\ deployDemo_rebuild intent sequenceContext
                 {| options := NoObject p; sequenceGroups := fields |}
               = Throw e.
Proof.
  destruct (coerce_rebuildValidationOrg_NoObject p) as (e & Hclass & He).
  exists e. split; [exact Hclass|].
  unfold deployDemo_rebuild. cbn [options]. by rewrite He.
Qed.



(** *** The completeness check *)

Lemma push_if_not_app v k ks :
  push_if_not v k ks = (ks ++ (if lnot v then [k] else []))%list.
Proof. unfold push_if_not. destruct (lnot v); [reflexivity|]. by rewrite app_nil_r. Qed.

Lemma keys_filter_cons (p : value -> bool) k v (l : list (string * value)) :
  map fst (List.filter (fun kv => p (snd kv)) ((k, v) :: l))
  = ((if p v then [k] else []) ++ map fst (List.filter (fun kv => p (snd kv)) l))%list.
Proof. cbn [List.filter snd]. by destruct (p v). Qed.

(** What [validateAppxDemoConfig] collects: the keys of the falsy settings,
    in the order of the checks. *)
Lemma validateAppxDemoConfig_falsy (c : AppxDemoProjectConfig) :
  let keys := map fst (List.filter (fun kv => lnot (snd kv)) (required_fields c)) in
  validateAppxDemoConfig c
  = match keys with [] => ValidTrue | _ => InvalidKeys keys end.
Proof.
  intros keys.
  assert (Hk : keys =
    push_if_not (schemaVersion c) "schemaVersion"
     (push_if_not (partnerName c) "partnerName"
      (push_if_not (partnerAlias c) "partnerAlias"
       (push_if_not (gitRemoteUri c) "gitRemoteUri"
        (push_if_not (gitHubUrl c) "gitHubUrl"
         (push_if_not (demoVersion c) "demoVersion"
          (push_if_not (demoType c) "demoType"
           (push_if_not (demoTitle c) "demoTitle"
            (push_if_not (demoConfig c) "demoConfig"
             (push_if_not (demoAlias c) "demoAlias" [])))))))))).
  { unfold keys, required_fields. rewrite !keys_filter_cons, !push_if_not_app.
    cbn [List.filter map]. rewrite app_nil_r, !app_nil_l, <- !app_assoc.
    reflexivity. }
  unfold validateAppxDemoConfig. cbv zeta. rewrite <- Hk.
  destruct keys as [|k rest]; [reflexivity|].
  destruct (Z.ltb_spec 0 (Z.of_nat (length (k :: rest)))) as [H|H];
    [reflexivity|]. cbn [length] in H. lia.
Qed.

Lemma lnot_missing_or_empty v :
  string_or_absent v = true -> lnot v = missing_or_empty v.
Proof. by destruct v. Qed.

Lemma NoDup_keys_filter (p : string * value -> bool) (l : list (string * value)) :
  NoDup (map fst l) -> NoDup (map fst (List.filter p l)).
Proof.
  induction l as [|[k v] l IH]; cbn [List.filter map fst]; [done|].
  intros [Hk Hl]%NoDup_cons. destruct (p (k, v)); [|by apply IH].
  cbn [map fst]. apply NoDup_cons. split; [|by apply IH].
  intros Hin. apply Hk.
  apply list_elem_of_In in Hin. apply list_elem_of_In.
  apply in_map_iff in Hin as ([k' v'] & Heq & Hin). apply in_map_iff.
  exists (k', v'). split; [done|]. by apply filter_In in Hin as [Hin _].
Qed.

(** C4.  Let every setting of the project configuration be a string or be
    absent, and let the local config file exist.  The keys reported are all
    the settings that are missing or empty, each once: when there is none
    the check passes and [resolve] constructs the project, otherwise the
    check answers these keys and [resolve] throws ERROR_INVALID_CONFIG with
    all of them in its message. *)
Theorem invalid_config_lists_all_missing
    (c : AppxDemoProjectConfig) (projectPath : string)
    (localConfig : AppxDemoLocalConfig) (demoConfigOverride : string)
    (Htyped : well_typed c = true) :
  NoDup (missing_keys c)
  /\ (forall k, In k (missing_keys c) <->
                exists v, In (k, v) (required_fields c) /\ missing_or_empty v = true)
  /\ validateAppxDemoConfig c
     = match missing_keys c with
       | [] => ValidTrue
       | _ => InvalidKeys (missing_keys c)
       end
  /\ Adk.resolve path_join projectPath true c localConfig demoConfigOverride
     = match missing_keys c with
       | [] => Normal (constructed
                         {| path := projectPath;
                            config_project := override_demoConfig demoConfigOverride c;
                            config_local := localConfig |})
       | _ => Throw (INVALID_CONFIG (missing_keys c))
       end.
Proof.
  assert (Hkeys : map fst (List.filter (fun kv => lnot (snd kv)) (required_fields c))
                  = missing_keys c).
  { unfold missing_keys. f_equal. apply filter_ext_in. intros [k v] Hin.
    apply lnot_missing_or_empty.
    unfold well_typed in Htyped. rewrite forallb_forall in Htyped.
    by apply (Htyped (k, v)). }
  pose proof (validateAppxDemoConfig_falsy c) as Hv. cbv zeta in Hv.
  rewrite Hkeys in Hv.
  split; [|split; [|split]].
  - apply NoDup_keys_filter. unfold required_fields. cbn [map fst].
    apply (bool_decide_unpack _). by vm_compute.
  - intros k. unfold missing_keys. rewrite in_map_iff. split.
    + intros ([k' v] & Heq & Hin). cbn in Heq. subst k'.
      apply filter_In in Hin as [Hin Hm]. by exists v.
    + intros (v & Hin & Hm). exists (k, v). split; [done|].
      apply filter_In. by split.
  - exact Hv.
  - unfold Adk.resolve. cbn [negb]. rewrite Hv.
    by destruct (missing_keys c).
Qed.

(** *** The in-progress flag *)

Variable readConfigFile : string -> value -> completion FalconCommandSequence.
Variable execute :
  FalconCommandSequence -> FalconSequenceContext -> completion FalconStatusReport.

Local Abbreviation deployDemo :=
  (Adk.deployDemo path_join FalconStatusReport readConfigFile execute).
Local Abbreviation validateDemo :=
  (Adk.validateDemo path_join FalconStatusReport readConfigFile execute).
Local Abbreviation invoke :=
  (Adk.invoke path_join FalconStatusReport readConfigFile execute).
Local Abbreviation after :=
  (Adk.after path_join FalconStatusReport readConfigFile execute).

(** Loading, assembling and executing the sequence leaves the members of
    the instance alone. *)
Lemma deployDemo_sequence_state sequenceContext this :
  fst (deployDemo_sequence readConfigFile sequenceContext this) = this.
Proof.
  unfold deployDemo_sequence, bind, gets, lift.
  destruct (readConfigFile _ _) as [seq|e]; [|reflexivity].
  destruct (validateDemoBuildConfig seq); [|reflexivity].
  reflexivity.
Qed.

Lemma bind_state {A B} (m : M A) (k : A -> M B) this :
  fst (m this) = this ->
  (forall a st, fst (k a st) = st) ->
  fst (bind m k this) = this.
Proof.
  intros Hm Hk. unfold bind. destruct (m this) as [st [a|e]]; cbn in Hm; subst st.
  - apply Hk.
  - reflexivity.
Qed.

Lemma bind_snd {A B} (m : M A) (k : A -> M B) this a :
  m this = (this, Normal a) -> bind m k this = k a this.
Proof. intros Hm. unfold bind. by rewrite Hm. Qed.

Lemma deployDemo_tail_state sequenceContext st :
  fst ((let! demoBuildSequence := deployDemo_sequence readConfigFile sequenceContext in
        let! statusReport := lift (execute demoBuildSequence sequenceContext) in
        ret statusReport) st) = st.
Proof.
  apply bind_state; [apply deployDemo_sequence_state|].
  intros seq st'. unfold bind, lift, ret. by destruct (execute _ _).
Qed.

(** Past the guard: with an intent already set, [deployDemo] does not touch
    the members of the instance. *)
Lemma deployDemo_running (c : AppxDemoProjectContext) (i : INTENT) (running : bool) :
  i <> NOT_SPECIFIED ->
  fst (deployDemo (instance c i running)) = instance c i running.
Proof.
  intros Hi. unfold Adk.deployDemo.
  apply bind_state; [|apply deployDemo_tail_state].
  by destruct i.
Qed.

(** With the flag set, [validateDemo] stops at the guard. *)
Lemma validateDemo_running (c : AppxDemoProjectContext) (i : INTENT) :
  validateDemo (instance c i true) = (instance c i true, Throw SEQUENCE_RUNNING).
Proof. reflexivity. Qed.

(** The first call on a fresh instance sets the flag and its intent. *)
Lemma first_call_state (c : AppxDemoProjectContext) (first : call) :
  fst (invoke first (constructed c)) = instance c (intent_of_call first) true.
Proof.
  destruct first; cbn [Adk.invoke intent_of_call].
  - unfold Adk.validateDemo.
    change (bind (setIntent VALIDATE_DEMO) (fun _ => deployDemo) (constructed c))
      with (deployDemo (instance c VALIDATE_DEMO true)).
    by apply deployDemo_running.
  - unfold Adk.deployDemo.
    change (constructed c) with (instance c NOT_SPECIFIED false).
    unfold bind at 1. rewrite deployDemo_context_fresh.
    apply deployDemo_tail_state.
Qed.

(** Later calls find the instance as the first call left it. *)
Lemma later_calls_state (c : AppxDemoProjectContext) (i : INTENT) (later : list call) :
  i <> NOT_SPECIFIED ->
  after later (instance c i true) = instance c i true.
Proof.
  intros Hi. induction later as [|call later IH]; [reflexivity|].
  cbn [Adk.after]. destruct call; cbn [Adk.invoke].
  - by rewrite validateDemo_running.
  - by rewrite deployDemo_running.
Qed.

(** Behind the guard, [deployDemo] is the selection of the target followed
    by four steps, each of which runs when the one before did not throw:
    the sequence file is read, the sequence is validated, it is assembled,
    and it is handed to the executor. *)
Lemma deployDemo_in_progress (c : AppxDemoProjectContext) (intent : INTENT) :
  intent = VALIDATE_DEMO \/ intent = DEPLOY_DEMO ->
  let sequenceContext :=
    sequence_context path_join c (alias_of_intent (config_local c) intent)
      (bool_decide (intent = VALIDATE_DEMO)) in
  deployDemo (instance c intent true)
  = (instance c intent true,
     and_then (readConfigFile (path_join (path c) "demo-config")
                 (demoConfig (config_project c))) (fun loaded =>
     and_then (validateDemoBuildConfig loaded) (fun _ =>
     and_then (deployDemo_rebuild intent sequenceContext loaded) (fun assembled =>
     execute assembled sequenceContext)))).
Proof.
  intros Hintent sequenceContext. unfold Adk.deployDemo.
  assert (Hctx : deployDemo_context path_join (instance c intent true)
                 = (instance c intent true, Normal sequenceContext)).
  { unfold sequenceContext. by destruct Hintent as [-> | ->]. }
  rewrite (bind_snd _ _ _ _ Hctx).
  cbv beta iota zeta delta [bind deployDemo_sequence gets lift ret and_then].
  cbn [context instance config_project executionIntent].
  change (configPath sequenceContext) with (path_join (path c) "demo-config").
  destruct (readConfigFile _ _) as [loaded|e]; [|reflexivity].
  destruct (validateDemoBuildConfig loaded); [|reflexivity].
  destruct (deployDemo_rebuild intent sequenceContext loaded); [|reflexivity].
  by destruct (execute _ _).
Qed.

End AdkProperties.

Section ReuseProperties.

Variable path_join : string -> string -> string.
Variable FalconStatusReport : Type.

(** Later calls find the instance as the first call left it, whatever the
    collaborators answer at the time of each. *)
Lemma later_calls_each_state (c : AppxDemoProjectContext) (i : INTENT)
    (later : list (call * collaborators FalconStatusReport)) :
  i <> NOT_SPECIFIED ->
  after_each path_join later (instance c i true) = instance c i true.
Proof.
  intros Hi. induction later as [|[call w] later IH]; [reflexivity|].
  cbn [after_each]. unfold invoke_with. destruct call; cbn [Adk.invoke].
  - by rewrite validateDemo_running.
  - by rewrite deployDemo_running.
Qed.

(** C10.  Take an instance that the constructor made, a first call of
    [validateDemo] or [deployDemo] on it and any number of later calls, the
    collaborators answering whatever they answer at the time of each call.
    Then the flag is set and the intent is the one of the first call.  On
    that instance [validateDemo] throws ERROR_SEQUENCE_RUNNING and changes
    nothing.  [deployDemo] passes the guard, selects its target under the
    intent of the first call, and goes through the whole sequence again
    with the collaborators as they answer now: it reads the sequence file
    and ends with the error of the reader when that throws, with the error
    of the validation when that throws, with a TypeError when the sequence
    holds no object under [options], and otherwise with the answer of the
    executor for the assembled sequence (the rebuild group in front exactly
    when the first call was [validateDemo] and the coerced option is true);
    in no case does it change the instance.  No call clears the flag, from
    whatever state; and [setIntent] writes the flag and the intent before
    it looks at the intent, so that an intent it rejects stays written. *)
Theorem in_progress_is_permanent
    (c : AppxDemoProjectContext)
    (first : call) (at_first : collaborators FalconStatusReport)
    (later : list (call * collaborators FalconStatusReport))
    (w : collaborators FalconStatusReport) :
  let this := after_each path_join ((first, at_first) :: later) (constructed c) in
  let intent := intent_of_call first in
  let sequenceContext :=
    sequence_context path_join c (alias_of_intent (config_local c) intent)
      (bool_decide (intent = VALIDATE_DEMO)) in
  let loading :=
    reads w (path_join (path c) "demo-config") (demoConfig (config_project c)) in
  this = instance c intent true
  /\ invoke_with path_join w CallValidateDemo this = (this, Throw SEQUENCE_RUNNING)
  /\ deployDemo_context path_join this = (this, Normal sequenceContext)
  /\ (forall e, loading = Throw e ->
        invoke_with path_join w CallDeployDemo this = (this, Throw e))
  /\ (forall loaded e,
        loading = Normal loaded -> validateDemoBuildConfig loaded = Throw e ->
        invoke_with path_join w CallDeployDemo this = (this, Throw e))
  /\ (forall p g groups,
        loading = Normal {| options := NoObject p;
                            sequenceGroups := GroupArray (g :: groups) |} ->
        exists e, exn_class e = TypeErrorClass
                  /\ invoke_with path_join w CallDeployDemo this = (this, Throw e))
  /\ (forall opts g groups,
        loading = Normal {| options := OptionsObject opts;
                            sequenceGroups := GroupArray (g :: groups) |} ->
        let rebuild := rebuildValidationOrg_coerced opts in
        exists group,
          map action (sequenceSteps group)
          = ["delete-scratch-org"; "create-scratch-org"]
          /\ invoke_with path_join w CallDeployDemo this
             = (this,
                executes w
                  {| options :=
                       OptionsObject (<["rebuildValidationOrg" := JBool rebuild]> opts);
                     sequenceGroups :=
                       GroupArray
                         (if bool_decide (intent = VALIDATE_DEMO) && rebuild
                          then group :: g :: groups
                          else g :: groups) |}
                  sequenceContext))
  /\ (forall c0 i0 call0 (w0 : collaborators FalconStatusReport),
        executingSequence (fst (invoke_with path_join w0 call0 (instance c0 i0 true)))
        = true)
  /\ (forall c0 i0 intent0,
        fst (setIntent intent0 (instance c0 i0 false)) = instance c0 intent0 true)
  /\ (forall c0 i0,
        setIntent HEALTH_CHECK (instance c0 i0 false)
        = (instance c0 HEALTH_CHECK true,
           Throw (Error "ERROR_INTENT_NOT_IMPLEMENTED: Your command uses an intent that is not yet implemented."))).
Proof.
  intros this intent sequenceContext loading.
  assert (Hintent : intent = VALIDATE_DEMO \/ intent = DEPLOY_DEMO).
  { unfold intent. destruct first; [by left|by right]. }
  assert (Hthis : this = instance c intent true).
  { unfold this. cbn [after_each]. unfold invoke_with.
    rewrite first_call_state. apply later_calls_each_state. by destruct first. }
  assert (Hdeploy := deployDemo_in_progress path_join FalconStatusReport
                       (reads w) (executes w) c intent Hintent).
  cbv zeta in Hdeploy. fold sequenceContext loading in Hdeploy.
  split; [exact Hthis|]. rewrite Hthis. unfold invoke_with. cbn [Adk.invoke].
  split; [apply validateDemo_running|].
  split; [unfold sequenceContext, intent; by destruct first|].
  rewrite Hdeploy.
  split; [intros e ->; reflexivity|].
  split; [intros loaded e -> Hv; cbn [and_then]; by rewrite Hv|].
  split; [|split].
  - intros p g groups ->. cbn [and_then].
    rewrite validateDemoBuildConfig_nonempty. cbn [and_then].
    destruct (deployDemo_rebuild_NoObject intent sequenceContext p
                (GroupArray (g :: groups))) as (e & Hclass & He).
    exists e. split; [exact Hclass|]. by rewrite He.
  - intros opts g groups Hloaded. cbv zeta. rewrite Hloaded. cbn [and_then].
    rewrite validateDemoBuildConfig_nonempty. cbn [and_then].
    rewrite deployDemo_rebuild_array. cbn [and_then].
    exists (rebuild_group (targetOrgAlias sequenceContext) opts).
    split; reflexivity.
  - split; [|split].
    + intros c0 i0 call0 w0. destruct call0; cbn [Adk.invoke].
      * by rewrite validateDemo_running.
      * destruct (decide (i0 = NOT_SPECIFIED)) as [->|Hne].
        -- reflexivity.
        -- by rewrite deployDemo_running.
    + intros c0 i0 intent0. by destruct intent0.
    + reflexivity.
Qed.

End ReuseProperties.


(** *** The assembly on sample sequences *)

Example rebuild_when_option_absent :
  match deployDemo_rebuild VALIDATE_DEMO sample_context
          (sample_sequence {[ "scratchDefJson" := JStr "demo-scratch-def.json" ]}) with
  | Normal seq =>
      read_option (options seq) "rebuildValidationOrg" = Normal (JBool true)
      /\ exists rebuild,
           sequenceGroups seq = GroupArray [rebuild; sample_group]
           /\ map action (sequenceSteps rebuild)
              = ["delete-scratch-org"; "create-scratch-org"]
           /\ map (fun step => step_options step !! "scratchOrgAlias")
                  (sequenceSteps rebuild)
              = [Some (JStr "validation"); Some (JStr "validation")]
           /\ map (fun step => step_options step !! "scratchDefJson")
                  (sequenceSteps rebuild)
              = [Some (JStr "demo-scratch-def.json"); Some (JStr "demo-scratch-def.json")]
  | Throw _ => False
  end.
Proof. vm_compute. split; [reflexivity|]. eexists. repeat split. Qed.

Example rebuild_when_option_not_boolean :
  match deployDemo_rebuild VALIDATE_DEMO sample_context
          (sample_sequence {[ "rebuildValidationOrg" := JStr "no" ]}) with
  | Normal seq =>
      read_option (options seq) "rebuildValidationOrg" = Normal (JBool true)
      /\ exists rebuild, sequenceGroups seq = GroupArray [rebuild; sample_group]
  | Throw _ => False
  end.
Proof. vm_compute. split; [reflexivity|]. by eexists. Qed.

Example no_rebuild_when_option_false :
  deployDemo_rebuild VALIDATE_DEMO sample_context
    (sample_sequence {[ "rebuildValidationOrg" := JBool false ]})
  = Normal (sample_sequence {[ "rebuildValidationOrg" := JBool false ]}).
Proof. reflexivity. Qed.

(** A sequence file without the key [options], and one whose [options] is
    a string: the validation passes, the assembly throws. *)
Example no_options_no_assembly :
  validateDemoBuildConfig sample_sequence_without_options = Normal ValidTrue
  /\ deployDemo_rebuild VALIDATE_DEMO sample_context sample_sequence_without_options
     = Throw (TypeError "Cannot read property 'rebuildValidationOrg' of undefined")
  /\ deployDemo_rebuild DEPLOY_DEMO sample_context
       {| options := NoObject PNull; sequenceGroups := GroupArray [sample_group] |}
     = Throw (TypeError "Cannot read property 'rebuildValidationOrg' of null")
  /\ deployDemo_rebuild DEPLOY_DEMO sample_context
       {| options := NoObject (PStr "none"); sequenceGroups := GroupArray [sample_group] |}
     = Throw (TypeError "Cannot create property 'rebuildValidationOrg' on string 'none'").
Proof. repeat split. Qed.

(** The string conversion of the numbers a configuration may hold. *)
Example template_of_numbers :
  template (JNum (Num 42)) = "42"
  /\ template (JNum (Num (-7))) = "-7"
  /\ template (JNum (Num (10 ^ 21 - 1))) = "1e+21"
  /\ template (JNum (Num (10 ^ 21))) = "1e+21"
  /\ template (JNum (Num (2 ^ 53 + 1))) = "9007199254740992"
  /\ template (JNum (Num (2 ^ 60))) = "1152921504606847000"
  /\ template (JNum (Num (2 ^ 70))) = "1.1805916207174113e+21"
  /\ template (JNum (Num (2 ^ 1024))) = "Infinity".
Proof. vm_compute. repeat split. Qed.

(** The sample project after a [validateDemo]: a [deployDemo] runs the
    sequence again, rebuild group included, with the file as it is then. *)
Example deployDemo_after_validateDemo :
  let this :=
    after_each slash_join
      [(CallValidateDemo, sample_collaborators (sample_sequence ∅))]
      (constructed sample_project) in
  this = instance sample_project VALIDATE_DEMO true
  /\ invoke_with slash_join (sample_collaborators (sample_sequence ∅))
       CallDeployDemo this
     = (this, Normal 2%nat)
  /\ invoke_with slash_join
       (sample_collaborators
          {| options := OptionsObject ∅;
             sequenceGroups := GroupArray [sample_group; sample_group] |})
       CallDeployDemo this
     = (this, Normal 3%nat)
  /\ invoke_with slash_join file_gone CallDeployDemo this
     = (this, Throw (Error "ENOENT"))
  /\ invoke_with slash_join (sample_collaborators sample_sequence_without_options)
       CallDeployDemo this
     = (this, Throw (TypeError "Cannot read property 'rebuildValidationOrg' of undefined")).
Proof. vm_compute. repeat split. Qed.

Example no_rebuild_when_deploying :
  deployDemo_rebuild DEPLOY_DEMO sample_context
    (sample_sequence {[ "rebuildValidationOrg" := JBool true ]})
  = Normal (sample_sequence {[ "rebuildValidationOrg" := JBool true ]}).
Proof. reflexivity. Qed.

(** The completeness check on a project configuration without a title and
    with an empty GitHub URL, and on a complete one. *)
Lemma invalid_config_lists_all_missing_witness :
  (well_typed sample_config_incomplete = true
   /\ missing_keys sample_config_incomplete = ["demoTitle"; "gitHubUrl"]
   /\ validateAppxDemoConfig sample_config_incomplete
      = InvalidKeys ["demoTitle"; "gitHubUrl"]
   /\ Adk.resolve slash_join "/home/demo/project" true
        sample_config_incomplete sample_local ""
      = Throw (INVALID_CONFIG ["demoTitle"; "gitHubUrl"]))
  /\ (well_typed sample_config = true
      /\ validateAppxDemoConfig sample_config = ValidTrue
      /\ Adk.resolve slash_join "/home/demo/project" true sample_config sample_local ""
         = Normal (constructed {| path := "/home/demo/project";
                                  config_project := sample_config;
                                  config_local := sample_local |})).
Proof.
  destruct (invalid_config_lists_all_missing slash_join
              sample_config_incomplete "/home/demo/project" sample_local "" eq_refl)
    as (_ & _ & Hv & Hr).
  destruct (invalid_config_lists_all_missing slash_join
              sample_config "/home/demo/project" sample_local "" eq_refl)
    as (_ & _ & Hv' & Hr').
  split.
  - split; [reflexivity|]. split; [reflexivity|]. split; [exact Hv|exact Hr].
  - split; [reflexivity|]. split; [exact Hv'|exact Hr'].
Defined.

(* ===================================================================== *)
(** ** Properties of the probes of the remote *)
(* ===================================================================== *)

Import Git.

Section ProbeProperties.

Lemma run_Call {A} (c : shellCall) (k : ShellString -> Shell A) w log :
  run (Call c k) w log = run (k (w log c)) w (log ++ [c])%list.
Proof. reflexivity. Qed.

Lemma verdict_of_code_other (z : Z) :
  z <> 0 -> z <> 2 -> z <> 128 -> verdict_of_code z = IndeterminateError.
Proof.
  intros H0 H2 H128. destruct z as [|p|p]; [done| |reflexivity].
  repeat (destruct p as [p|p|]; try reflexivity; try done).
Qed.

(** The callback of the asynchronous probe fills its object by the table. *)
Lemma probe_result_verdict (r : ShellString) :
  probe_result r
  = {| ro_code := code r;
       ro_stdout := stdout r;
       ro_stderr := stderr r;
       message := verdict_message (verdict_of_code (code r));
       resolve := bool_decide (code r = 0) |}.
Proof.
  unfold probe_result. destruct r as [z out err]. cbn [code stdout stderr].
  destruct (Z.eqb_spec z 0) as [->|H0]; [reflexivity|].
  destruct (Z.eqb_spec z 2) as [->|H2]; [reflexivity|].
  destruct (Z.eqb_spec z 128) as [->|H128]; [reflexivity|].
  rewrite verdict_of_code_other by done.
  by rewrite bool_decide_eq_false_2.
Qed.

Lemma history_iff_zero (z : Z) :
  verdict_of_code z = ReachableWithHistory <-> z = 0.
Proof.
  split; [|by intros ->].
  destruct (decide (z = 0)) as [|H0]; [done|].
  destruct (decide (z = 2)) as [->|H2]; [done|].
  destruct (decide (z = 128)) as [->|H128]; [done|].
  by rewrite verdict_of_code_other.
Qed.

(** One run of the asynchronous probe, after the optional wait. *)
Lemma run_async_probe (command : string) (w : oracle) (log : list shellCall) :
  run (Call (ExecAsync command)
            (fun r => if resolve (probe_result r)
                      then Ret (Resolved (probe_result r))
                      else Ret (Rejected (probe_result r)))) w log
  = ((log ++ [ExecAsync command])%list,
     Normal (if bool_decide (code (w log (ExecAsync command)) = 0)
             then Resolved (probe_result (w log (ExecAsync command)))
             else Rejected (probe_result (w log (ExecAsync command))))).
Proof.
  cbn [run]. rewrite (probe_result_verdict (w log (ExecAsync command))).
  cbn [resolve]. by destruct (bool_decide _).
Qed.

(** C2.  Whatever the probe answers, [isGitRemoteEmptyAsync] settles its
    promise with an object that carries the exit code and the two streams
    of the probe and the message of the verdict that the table of the
    specification gives for the exit code; its [resolve] member says
    whether that verdict is Reachable-With-History; and the promise is
    resolved with the object for exit code 0 and rejected with it for every
    other exit code. *)
Theorem isGitRemoteEmptyAsync_classifies
    (gitRemoteUri : string) (seconds : option Z) (w : oracle) :
  let waited :=
    match seconds with
    | Some s => if 0 <? s then [WaitASecond (Num s)] else []
    | None => []
    end in
  let probe := ExecAsync ("git ls-remote --exit-code -h " +:+ gitRemoteUri) in
  let r := w waited probe in
  let verdict := verdict_of_code (code r) in
  let returnObject :=
    {| ro_code := code r;
       ro_stdout := stdout r;
       ro_stderr := stderr r;
       message := verdict_message verdict;
       resolve := bool_decide (verdict = ReachableWithHistory) |} in
  run (isGitRemoteEmptyAsync (JStr gitRemoteUri) (Num <$> seconds)) w []
  = ((waited ++ [probe])%list,
     Normal (if bool_decide (code r = 0)
             then Resolved returnObject
             else Rejected returnObject)).
Proof.
  intros waited probe r verdict returnObject.
  assert (Hobj : forall r0, probe_result r0
     = {| ro_code := code r0;
          ro_stdout := stdout r0;
          ro_stderr := stderr r0;
          message := verdict_message (verdict_of_code (code r0));
          resolve := bool_decide (verdict_of_code (code r0) = ReachableWithHistory) |}).
  { intros r0. rewrite probe_result_verdict. f_equal.
    apply bool_decide_ext. by rewrite history_iff_zero. }
  subst returnObject verdict r waited.
  unfold isGitRemoteEmptyAsync.
  destruct seconds as [s|];
    cbn [fmap option_fmap option_map default id isNaN gt_zero].
  - destruct (0 <? s); cbn [andThen].
    + rewrite run_Call, run_async_probe. cbn [app].
      change (ExecAsync (ls_remote gitRemoteUri)) with probe. by rewrite Hobj.
    + rewrite run_async_probe. cbn [app].
      change (ExecAsync (ls_remote gitRemoteUri)) with probe. by rewrite Hobj.
  - cbn [Z.ltb Z.compare andThen]. rewrite run_async_probe. cbn [app].
    change (ExecAsync (ls_remote gitRemoteUri)) with probe. by rewrite Hobj.
Qed.

Lemma run_fatal_then {A} (c : shellCall) (k : Shell A) (h : exn -> Shell A) w log :
  run (try_catch (andThen (fatal c) (fun _ => k)) h) w log
  = if code (w log c) =? 0
    then run (try_catch k h) w (log ++ [c])%list
    else run (h (Error (stderr (w log c)))) w (log ++ [c])%list.
Proof.
  cbn [fatal andThen try_catch run].
  by destruct (code (w log c) =? 0).
Qed.

(** C6.  The blocking probe runs the same command as the asynchronous one
    and answers [true] exactly for exit code 0, that is exactly when the
    asynchronous probe resolves; it answers [false] for 2, for 128 and for
    every other code alike.  Its answer is a function of the asynchronous
    result, while the asynchronous result (which differs between 2 and
    128) is no function of the blocking answer. *)
Theorem blocking_probe_is_coarser (gitRemoteUri : string) :
  (forall w : oracle,
     run (isGitRemoteEmpty (JStr gitRemoteUri)) w []
     = ([Exec ("git ls-remote --exit-code -h " +:+ gitRemoteUri)],
        Normal (bool_decide
                  (code (w [] (Exec ("git ls-remote --exit-code -h " +:+ gitRemoteUri)))
                   = 0))))
  /\ (forall r, blocking gitRemoteUri r = Normal (bool_decide (code r = 0)))
  /\ (forall r, blocking gitRemoteUri r
                = Normal (bool_decide (verdict_of_code (code r) = ReachableWithHistory)))
  /\ (forall r, blocking gitRemoteUri r
                = Normal (resolved (nonblocking gitRemoteUri r)))
  /\ blocking gitRemoteUri (exit_with 2) = Normal false
  /\ blocking gitRemoteUri (exit_with 128) = Normal false
  /\ blocking gitRemoteUri (exit_with 7) = Normal false
  /\ nonblocking gitRemoteUri (exit_with 2) <> nonblocking gitRemoteUri (exit_with 128)
  /\ (exists f, forall r, blocking gitRemoteUri r = f (nonblocking gitRemoteUri r))
  /\ ~ (exists g, forall r, nonblocking gitRemoteUri r = g (blocking gitRemoteUri r)).
Proof.
  assert (Hrun : forall w : oracle,
     run (isGitRemoteEmpty (JStr gitRemoteUri)) w []
     = ([Exec (ls_remote gitRemoteUri)],
        Normal (bool_decide (code (w [] (Exec (ls_remote gitRemoteUri))) = 0)))).
  { intros w. unfold isGitRemoteEmpty. rewrite run_fatal_then.
    destruct (Z.eqb_spec (code (w [] (Exec (ls_remote gitRemoteUri)))) 0) as [H|H];
      cbn [try_catch run app].
    - by rewrite (bool_decide_eq_true_2 _ H).
    - by rewrite (bool_decide_eq_false_2 _ H). }
  assert (Hb : forall r, blocking gitRemoteUri r = Normal (bool_decide (code r = 0))).
  { intros r. unfold blocking. by rewrite Hrun. }
  assert (Hn : forall r, resolved (nonblocking gitRemoteUri r) = bool_decide (code r = 0)).
  { intros r. unfold nonblocking, isGitRemoteEmptyAsync.
    cbn [default isNaN gt_zero Z.ltb Z.compare andThen].
    rewrite run_async_probe. unfold answering. cbn [snd].
    by destruct (bool_decide (code r = 0)). }
  split; [exact Hrun|]. split; [exact Hb|].
  split. { intros r. rewrite Hb. f_equal. apply bool_decide_ext.
           by rewrite history_iff_zero. }
  split. { intros r. by rewrite Hb, Hn. }
  split; [by rewrite Hb|]. split; [by rewrite Hb|]. split; [by rewrite Hb|].
  assert (Hdiff : nonblocking gitRemoteUri (exit_with 2)
                  <> nonblocking gitRemoteUri (exit_with 128)).
  { unfold nonblocking, isGitRemoteEmptyAsync.
    cbn [default isNaN gt_zero Z.ltb Z.compare andThen].
    rewrite !run_async_probe. unfold answering. cbn. discriminate. }
  split; [exact Hdiff|].
  split.
  - exists (fun o => Normal (resolved o)). intros r. by rewrite Hb, Hn.
  - intros [g Hg]. apply Hdiff. rewrite !Hg, !Hb. reflexivity.
Qed.

End ProbeProperties.

(* ===================================================================== *)
(** ** The repository name *)
(* ===================================================================== *)

Section Matching.

Lemma append_cons c (s t : string) : String c s +:+ t = String c (s +:+ t).
Proof. reflexivity. Qed.

Lemma append_nil_l (t : string) : "" +:+ t = t.
Proof. reflexivity. Qed.

Lemma append_nil_r (s : string) : s +:+ "" = s.
Proof. induction s as [|c s IH]; [done|]. by rewrite append_cons, IH. Qed.

Lemma append_assoc (s1 s2 s3 : string) : (s1 +:+ s2) +:+ s3 = s1 +:+ (s2 +:+ s3).
Proof. induction s1 as [|c s1 IH]; [done|]. by rewrite !append_cons, IH. Qed.

Lemma length_append (s1 s2 : string) :
  String.length (s1 +:+ s2) = (String.length s1 + String.length s2)%nat.
Proof.
  induction s1 as [|c s1 IH]; [done|]. rewrite append_cons. cbn [String.length].
  by rewrite IH.
Qed.

Lemma all_append p (s1 s2 : string) : all p (s1 +:+ s2) = all p s1 && all p s2.
Proof.
  induction s1 as [|c s1 IH]; [done|]. rewrite append_cons. cbn [all].
  rewrite IH. by rewrite andb_assoc.
Qed.

Lemma matches_Never s : matches Never s = false.
Proof. induction s as [|c s IH]; [done|exact IH]. Qed.

Lemma matches_Empty s : matches Empty s = true -> s = "".
Proof. destruct s as [|c s]; [done|]. cbn. by rewrite matches_Never. Qed.

Lemma matches_Or r1 r2 s : matches (Or r1 r2) s = matches r1 s || matches r2 s.
Proof. revert r1 r2. induction s as [|c s IH]; intros r1 r2; [done|]. cbn. apply IH. Qed.

(** A match of a concatenation splits into a match of each part. *)
Lemma matches_Cat_split r1 r2 s :
  matches (Cat r1 r2) s = true ->
  exists s1 s2, s = s1 +:+ s2 /\ matches r1 s1 = true /\ matches r2 s2 = true.
Proof.
  revert r1. induction s as [|c s IH]; intros r1.
  - cbn. intros [H1 H2]%andb_true_iff. by exists "", "".
  - cbn [matches deriv]. destruct (nullable r1) eqn:Hn.
    + rewrite matches_Or. intros [H|H]%orb_true_iff.
      * apply IH in H as (s1 & s2 & -> & H1 & H2). by exists (String c s1), s2.
      * by exists "", (String c s).
    + intros H. apply IH in H as (s1 & s2 & -> & H1 & H2).
      by exists (String c s1), s2.
Qed.

(** Matches of two parts join into a match of their concatenation. *)
Lemma matches_Cat_join r1 r2 s1 s2 :
  matches r1 s1 = true -> matches r2 s2 = true ->
  matches (Cat r1 r2) (s1 +:+ s2) = true.
Proof.
  revert r1. induction s1 as [|c s1 IH]; intros r1 H1 H2.
  - cbn in H1. rewrite append_nil_l. destruct s2 as [|c s2].
    + cbn. by rewrite H1.
    + cbn [matches deriv]. rewrite H1, matches_Or. cbn in H2. rewrite H2.
      apply orb_true_r.
  - rewrite append_cons. cbn [matches deriv]. cbn in H1.
    destruct (nullable r1); [rewrite matches_Or|]; rewrite IH; done.
Qed.

Lemma matches_Class p s :
  matches (Class p) s = true -> exists c, s = String c "" /\ p c = true.
Proof.
  destruct s as [|c s]; [done|]. cbn. destruct (p c) eqn:Hp.
  - intros ->%matches_Empty. by exists c.
  - by rewrite matches_Never.
Qed.

Lemma matches_Class_one (p : ascii -> bool) c :
  p c = true -> matches (Class p) (String c "") = true.
Proof. intros H. cbn. by rewrite H. Qed.

Lemma matches_lit l s : matches (lit l) s = true -> s = l.
Proof.
  revert s. induction l as [|c l IH]; intros s; cbn [lit].
  - apply matches_Empty.
  - intros (s1 & s2 & -> & H1 & H2)%matches_Cat_split.
    apply matches_Class in H1 as (c' & -> & Hc). apply IH in H2 as ->.
    unfold chr in Hc. by destruct (decide (c' = c)) as [->|].
Qed.

Lemma matches_lit_self l : matches (lit l) l = true.
Proof.
  induction l as [|c l IH]; [done|]. cbn [lit].
  change (String c l) with (String c "" +:+ l).
  apply matches_Cat_join; [|exact IH].
  apply matches_Class_one. by destruct (decide (c = c)).
Qed.

(** A star over a pattern of single characters matches runs of them. *)
Lemma matches_Star_chars r (p : ascii -> bool) s :
  (forall t, matches r t = true -> exists c, t = String c "" /\ p c = true) ->
  matches (Star r) s = true -> all p s = true.
Proof.
  intros Hr. induction s as [|c s IH]; [done|].
  cbn [matches deriv]. intros (s1 & s2 & Hs & H1 & H2)%matches_Cat_split.
  assert (H1' : matches r (String c s1) = true) by exact H1.
  apply Hr in H1' as (c' & Hc & Hp). injection Hc as -> ->.
  rewrite append_nil_l in Hs. subst s2. cbn. rewrite Hp. by apply IH.
Qed.

Lemma matches_Star_run r (p : ascii -> bool) s :
  (forall c, p c = true -> matches r (String c "") = true) ->
  all p s = true -> matches (Star r) s = true.
Proof.
  intros Hr. induction s as [|c s IH]; [done|].
  cbn [all]. intros [Hc Hs]%andb_true_iff.
  change (matches (Cat (deriv c r) (Star r)) ("" +:+ s) = true).
  apply matches_Cat_join; [|by apply IH]. exact (Hr c Hc).
Qed.

Lemma name_pattern_chars t :
  matches (Or (Class is_word) (chr "-")) t = true ->
  exists c, t = String c "" /\ is_name c = true.
Proof.
  rewrite matches_Or. unfold is_name. intros [H|H]%orb_true_iff.
  - apply matches_Class in H as (c & -> & Hc). exists c. by rewrite Hc.
  - apply matches_Class in H as (c & -> & Hc). exists c. split; [done|].
    unfold chr in Hc. rewrite Hc. apply orb_true_r.
Qed.

Lemma name_pattern_one c :
  is_name c = true -> matches (Or (Class is_word) (chr "-")) (String c "") = true.
Proof.
  unfold is_name. intros [H|H]%orb_true_iff; rewrite matches_Or.
  - by rewrite (matches_Class_one _ _ H).
  - unfold chr. rewrite (matches_Class_one _ _ H). apply orb_true_r.
Qed.

Lemma slash_pattern_chars t :
  matches (chr "/") t = true -> exists c, t = String c "" /\ is_slash c = true.
Proof. exact (matches_Class _ t). Qed.

(** What [repoNameRegEx] matches: a slash, a name of at least one
    character, [.git], and slashes. *)
Lemma repoNameRegEx_matches m :
  matches repoNameRegEx m = true <->
  exists c name slashes,
    m = trailing_segment (String c name) slashes
    /\ all is_name (String c name) = true /\ all is_slash slashes = true.
Proof.
  unfold repoNameRegEx, plus, trailing_segment. split.
  - intros (s0 & m1 & -> & H0 & H)%matches_Cat_split.
    apply matches_Cat_split in H as (s1 & m2 & -> & H1 & H).
    apply matches_Cat_split in H as (s2 & s3 & -> & H2 & H3).
    apply slash_pattern_chars in H0 as (c0 & -> & Hc0).
    unfold is_slash in Hc0. destruct (decide (c0 = "/"%char)) as [->|]; [|done].
    apply matches_Cat_split in H1 as (t & name & -> & Ht & Hname).
    apply name_pattern_chars in Ht as (c & -> & Hc).
    apply (matches_Star_chars _ is_name _ name_pattern_chars) in Hname.
    apply matches_lit in H2 as ->.
    apply (matches_Star_chars _ is_slash _ slash_pattern_chars) in H3.
    exists c, name, s3. cbn [all]. by rewrite Hc, Hname.
  - intros (c & name & slashes & -> & Hall & Hs).
    cbn [all] in Hall. apply andb_true_iff in Hall as [Hc Hname].
    change ("/" +:+ String c name +:+ ".git" +:+ slashes)
      with ("/" +:+ ((String c "" +:+ name) +:+ (".git" +:+ slashes))).
    apply matches_Cat_join; [reflexivity|].
    apply matches_Cat_join.
    + apply matches_Cat_join; [by apply name_pattern_one|].
      by apply (matches_Star_run _ is_name _ name_pattern_one).
    + apply matches_Cat_join; [apply (matches_lit_self ".git")|].
      apply (matches_Star_run _ is_slash); [|done].
      intros c' Hc'. exact (matches_Class_one is_slash c' Hc').
Qed.

(** *** The string methods on a trailing segment *)

Lemma all_impl (p q : ascii -> bool) s :
  (forall c, p c = true -> q c = true) -> all p s = true -> all q s = true.
Proof.
  intros Hpq. induction s as [|c s IH]; [done|]. cbn [all].
  intros [Hc Hs]%andb_true_iff. by rewrite (Hpq c Hc), IH.
Qed.

Lemma lastIndexOf_from_absent c s i :
  all (is_not c) s = true -> lastIndexOf_from c s i = -1.
Proof.
  revert i. induction s as [|a s IH]; intros i; [done|]. cbn [all lastIndexOf_from].
  intros [Ha Hs]%andb_true_iff. rewrite IH by done. cbn.
  unfold is_not in Ha. by destruct (decide (a = c)).
Qed.

Lemma lastIndexOf_from_last c s1 s2 i :
  0 <= i -> all (is_not c) s2 = true ->
  lastIndexOf_from c (s1 +:+ String c s2) i = i + Z.of_nat (String.length s1).
Proof.
  revert i. induction s1 as [|a s1 IH]; intros i Hi Hs2.
  - rewrite append_nil_l. cbn [lastIndexOf_from String.length].
    rewrite lastIndexOf_from_absent by done. cbn.
    destruct (decide (c = c)); [lia|done].
  - rewrite append_cons. cbn [lastIndexOf_from String.length].
    rewrite IH by (done || lia).
    destruct (Z.leb_spec 0 (i + 1 + Z.of_nat (String.length s1))); lia.
Qed.

Lemma substring_prefix (s1 s2 : string) :
  String.substring 0 (String.length s1) (s1 +:+ s2) = s1.
Proof.
  induction s1 as [|c s1 IH].
  - by destruct s2.
  - rewrite append_cons. cbn [String.length String.substring]. by rewrite IH.
Qed.

Lemma substring_all (s : string) : String.substring 0 (String.length s) s = s.
Proof. rewrite <- (append_nil_r s) at 2. apply substring_prefix. Qed.

(** The three string steps of [getRepoNameFromUri] on a trailing segment
    leave the name. *)
Lemma name_of_trailing_segment (name slashes : string) :
  all is_slash slashes = true ->
  let m := trailing_segment name slashes in
  substr (substring m 0 (lastIndexOf m ".")) 1 = name.
Proof.
  intros Hs m.
  assert (Hm : m = ("/" +:+ name) +:+ String "." ("git" +:+ slashes)).
  { unfold m, trailing_segment. by rewrite append_assoc. }
  assert (Hdot : all (is_not ".") ("git" +:+ slashes) = true).
  { rewrite all_append. apply andb_true_iff. split; [reflexivity|].
    apply (all_impl is_slash); [|done].
    intros c Hc. unfold is_slash in Hc. destruct (decide (c = "/"%char)) as [->|];
      done. }
  assert (Hidx : lastIndexOf m "." = Z.of_nat (String.length ("/" +:+ name))).
  { unfold lastIndexOf. rewrite Hm, lastIndexOf_from_last by done. lia. }
  rewrite Hidx. unfold substring, clamp.
  assert (Hlen : (String.length ("/" +:+ name) <= String.length m)%nat).
  { rewrite Hm, !length_append. lia. }
  replace (Z.max 0 (Z.min 0 (Z.of_nat (String.length m)))) with 0 by lia.
  replace (Z.max 0 (Z.min (Z.of_nat (String.length ("/" +:+ name)))
                          (Z.of_nat (String.length m))))
    with (Z.of_nat (String.length ("/" +:+ name))) by lia.
  replace (Z.min 0 (Z.of_nat (String.length ("/" +:+ name)))) with 0 by lia.
  replace (Z.max 0 (Z.of_nat (String.length ("/" +:+ name))))
    with (Z.of_nat (String.length ("/" +:+ name))) by lia.
  rewrite Z.sub_0_r, Nat2Z.id. change (Z.to_nat 0) with 0%nat.
  rewrite Hm, substring_prefix.
  unfold substr. rewrite append_cons, append_nil_l.
  cbn [String.length String.substring].
  replace (S (String.length name) - 1)%nat with (String.length name) by lia.
  apply substring_all.
Qed.

(** *** The search of [exec] *)

Lemma exec_to_end_Some r u m :
  exec_to_end r u = Some m ->
  matches r m = true /\ exists prefix, u = prefix +:+ m.
Proof.
  induction u as [|c u IH]; cbn [exec_to_end].
  - destruct (matches r "") eqn:E; [|done]. intros [= <-]. split; [done|by exists ""].
  - destruct (matches r (String c u)) eqn:E.
    + intros [= <-]. split; [done|by exists ""].
    + intros H. apply IH in H as (Hm & prefix & ->). split; [done|].
      by exists (String c prefix).
Qed.

Lemma exec_to_end_None r prefix m :
  exec_to_end r (prefix +:+ m) = None -> matches r m = false.
Proof.
  induction prefix as [|c prefix IH].
  - rewrite append_nil_l. destruct m as [|c m]; cbn [exec_to_end];
      by destruct (matches r _).
  - rewrite append_cons. cbn [exec_to_end].
    destruct (matches r (String c (prefix +:+ m))); [done|]. exact IH.
Qed.

(** *** A URI has one trailing segment at most *)

Lemma suffix_compare (p a p' a' : string) :
  p +:+ a = p' +:+ a' ->
  (exists q, a = q +:+ a') \/ (exists q, a' = q +:+ a).
Proof.
  revert p'. induction p as [|c p IH]; intros p'.
  - rewrite append_nil_l. intros ->. left. by exists p'.
  - destruct p' as [|c' p'].
    + rewrite append_nil_l. intros <-. right. by exists (String c p).
    + rewrite !append_cons. intros [= _ H]. by apply IH in H.
Qed.

(** In a name, [.git] and slashes, no slash is followed by another
    character than a slash. *)
Lemma no_inner_slash (A S X Y : string) (c : ascii) :
  all (is_not "/") A = true -> all is_slash S = true -> is_slash c = false ->
  A +:+ S <> X +:+ String "/" (String c Y).
Proof.
  intros HA HS Hc. revert X. induction A as [|a A IH]; intros X.
  - rewrite append_nil_l. intros ->. rewrite all_append in HS.
    apply andb_true_iff in HS as [_ HS]. cbn [all] in HS. rewrite Hc in HS.
    by rewrite andb_false_r in HS.
  - cbn [all] in HA. apply andb_true_iff in HA as [Ha HA].
    destruct X as [|x X].
    + rewrite append_nil_l, append_cons. intros [= -> _]. done.
    + rewrite !append_cons. intros [= _ H]. by apply (IH HA X).
Qed.

Lemma first_occurrence (x : ascii) (A B A' B' : string) :
  all (is_not x) A = true -> all (is_not x) A' = true ->
  A +:+ String x B = A' +:+ String x B' -> A = A'.
Proof.
  revert A'. induction A as [|a A IH]; intros A' HA HA'.
  - destruct A' as [|a' A']; [done|]. rewrite append_nil_l, append_cons.
    intros [= <- _]. cbn [all] in HA'. unfold is_not in HA'.
    by destruct (decide (x = x)).
  - cbn [all] in HA. apply andb_true_iff in HA as [Ha HA].
    destruct A' as [|a' A'].
    + rewrite append_nil_l, append_cons. intros [= -> _]. unfold is_not in Ha.
      by destruct (decide (x = x)).
    + cbn [all] in HA'. apply andb_true_iff in HA' as [_ HA'].
      rewrite !append_cons. intros [= -> H]. f_equal. by apply (IH A').
Qed.

Lemma is_name_no_dot c : is_name c = true -> is_not "." c = true.
Proof.
  intros H. unfold is_not. destruct (decide (c = "."%char)) as [->|]; [|done].
  vm_compute in H. discriminate.
Qed.

Lemma is_name_no_slash c : is_name c = true -> is_not "/" c = true.
Proof.
  intros H. unfold is_not. destruct (decide (c = "/"%char)) as [->|]; [|done].
  vm_compute in H. discriminate.
Qed.

Lemma is_name_is_slash c : is_name c = true -> is_slash c = false.
Proof.
  intros H%is_name_no_slash. unfold is_not in H. unfold is_slash.
  by destruct (decide (c = "/"%char)).
Qed.

(** A trailing segment that ends in another trailing segment is that
    segment. *)
Lemma segment_in_segment (q N S N' S' : string) (c' : ascii) :
  all is_name N = true -> all is_slash S = true ->
  all is_name (String c' N') = true ->
  trailing_segment N S = q +:+ trailing_segment (String c' N') S' ->
  N = String c' N'.
Proof.
  intros HN HS HN'. unfold trailing_segment.
  rewrite !(append_cons "/" ""), !append_nil_l.
  destruct q as [|x q].
  - rewrite append_nil_l. intros [= H].
    change (".git" +:+ S) with (String "." ("git" +:+ S)) in H.
    change (".git" +:+ S') with (String "." ("git" +:+ S')) in H.
    apply first_occurrence in H; [done| |].
    + apply (all_impl is_name); [apply is_name_no_dot|done].
    + apply (all_impl is_name); [apply is_name_no_dot|done].
  - rewrite append_cons. intros [= _ H]. exfalso.
    apply (no_inner_slash (N +:+ ".git") S q (N' +:+ ".git" +:+ S') c').
    + rewrite all_append. apply andb_true_iff. split; [|reflexivity].
      apply (all_impl is_name); [apply is_name_no_slash|done].
    + done.
    + cbn [all] in HN'. apply andb_true_iff in HN' as [Hc' _].
      by apply is_name_is_slash.
    + rewrite append_assoc. exact H.
Qed.

(** *** What [getRepoNameFromUri] returns *)

(** X14.  On a URI that ends in [/<name>.git] and slashes, with a name of at
    least one word character or hyphen, [getRepoNameFromUri] returns the
    name. *)
Theorem getRepoNameFromUri_segment (prefix name slashes : string) (c : ascii) :
  all is_name (String c name) = true -> all is_slash slashes = true ->
  getRepoNameFromUri (JStr (prefix +:+ trailing_segment (String c name) slashes))
  = Normal (String c name).
Proof.
  intros Hname Hslashes. unfold getRepoNameFromUri.
  destruct (exec_to_end repoNameRegEx _) as [m|] eqn:E.
  - apply exec_to_end_Some in E as (Hm & prefix' & Hu).
    apply repoNameRegEx_matches in Hm as (c' & name' & slashes' & -> & Hname' & Hslashes').
    rewrite name_of_trailing_segment by done.
    destruct (decide (String c' name' = "")); [done|].
    f_equal. symmetry.
    apply suffix_compare in Hu as [[q Hq]|[q Hq]].
    + by apply segment_in_segment in Hq.
    + symmetry. by apply segment_in_segment in Hq.
  - apply exec_to_end_None in E.
    assert (matches repoNameRegEx (trailing_segment (String c name) slashes) = true)
      as Hm by (apply repoNameRegEx_matches; by exists c, name, slashes).
    congruence.
Qed.

(** X15.  On every string, [getRepoNameFromUri] either returns a name, which
    is not empty and is the name of a trailing segment of the URI, or it
    throws the TypeError of reading [null], which it does exactly when the
    URI has no trailing segment.  It never throws
    ERROR_UNREADABLE_REPO_NAME. *)
Theorem getRepoNameFromUri_result (gitRemoteUri : string) :
  (exists c name,
      getRepoNameFromUri (JStr gitRemoteUri) = Normal (String c name)
      /\ all is_name (String c name) = true
      /\ exists prefix slashes,
           all is_slash slashes = true
           /\ gitRemoteUri = prefix +:+ trailing_segment (String c name) slashes)
  \/ (getRepoNameFromUri (JStr gitRemoteUri)
        = Throw (TypeError "Cannot read property '0' of null")
      /\ forall prefix c name slashes,
           all is_name (String c name) = true -> all is_slash slashes = true ->
           gitRemoteUri <> prefix +:+ trailing_segment (String c name) slashes).
Proof.
  destruct (exec_to_end repoNameRegEx gitRemoteUri) as [m|] eqn:E.
  - left. pose proof E as E'.
    apply exec_to_end_Some in E' as (Hm & prefix & Hu).
    apply repoNameRegEx_matches in Hm as (c & name & slashes & -> & Hname & Hslashes).
    exists c, name. split; [|split; [done|by exists prefix, slashes]].
    unfold getRepoNameFromUri. rewrite E, name_of_trailing_segment by done.
    by destruct (decide (String c name = "")).
  - right. split; [unfold getRepoNameFromUri; by rewrite E|].
    intros prefix c name slashes Hname Hslashes ->.
    apply exec_to_end_None in E.
    assert (matches repoNameRegEx (trailing_segment (String c name) slashes) = true)
      as Hm by (apply repoNameRegEx_matches; by exists c, name, slashes).
    congruence.
Qed.

End Matching.

Example getRepoNameFromUri_my_repo :
  getRepoNameFromUri (JStr "https://example.com/org/my-repo.git") = Normal "my-repo".
Proof. reflexivity. Qed.

Example getRepoNameFromUri_trailing_slashes :
  getRepoNameFromUri (JStr "git@example.com:org/my_repo-2.git//") = Normal "my_repo-2".
Proof. reflexivity. Qed.

(** C8, at the input of the specification that has no name before [.git].
    The pattern wants at least one character of the name, so it does not
    match, [exec] answers [null], and reading element 0 of [null] throws a
    TypeError: the function does not reach its own test for an empty name
    and does not throw ERROR_UNREADABLE_REPO_NAME. *)
Theorem getRepoNameFromUri_without_name :
  exec_to_end repoNameRegEx "https://example.com/.git" = None
  /\ (exists text,
        getRepoNameFromUri (JStr "https://example.com/.git") = Throw (TypeError text))
  /\ getRepoNameFromUri (JStr "https://example.com/.git")
     <> Throw (Error "ERROR_UNREADABLE_REPO_NAME").
Proof.
  split; [reflexivity|]. split; [by eexists|]. discriminate.
Qed.

(* ===================================================================== *)
(** ** Properties of the provisioning operations *)
(* ===================================================================== *)

Section ProvisionerProperties.

Variable path_normalize : string -> string.
Variable path_resolve : string -> string.

Local Abbreviation gitClone := (Git.gitClone path_normalize path_resolve).

(** The runs of [gitClone] on a string and a directory that is not blank,
    as a decision tree over the exit codes. *)
Lemma gitClone_run (gitRemoteUri targetDirectory : string) (w : oracle) :
  trim targetDirectory <> "" ->
  let target := path_resolve (path_normalize targetDirectory) in
  let clone := Exec ("git clone " +:+ gitRemoteUri) in
  let finish log :=
    ((log ++ [clone])%list,
     if code (w log clone) =? 0 then Normal tt
     else Throw (DESTINATION_NOT_EMPTY target)) in
  let recover log :=
    if code (w log (Mkdir "-p" target)) =? 0 then
      if code (w (log ++ [Mkdir "-p" target])%list (Cd target)) =? 0
      then finish (log ++ [Mkdir "-p" target; Cd target])%list
      else ((log ++ [Mkdir "-p" target; Cd target])%list, Throw NO_TARGET_DIR)
    else ((log ++ [Mkdir "-p" target])%list, Throw INVALID_TARGET_DIR) in
  run (gitClone (JStr gitRemoteUri) (JStr targetDirectory)) w []
  = if code (w [] (Cd target)) =? 0 then
      if code (w [Cd target] Pwd) =? 0
      then finish [Cd target; Pwd]
      else recover [Cd target; Pwd]
    else recover [Cd target].
Proof.
  intros Hdir target clone finish recover.
  unfold Git.gitClone. destruct (decide (trim targetDirectory = "")); [done|].
  fold target. fold clone. unfold recover, finish.
  cbn [andThen try_catch fatal run app].
  repeat (destruct (_ =? 0); cbn [andThen try_catch fatal run app]);
    reflexivity.
Qed.

(** C7.  Let [gitClone] be called with a remote and a directory that is
    not blank, and let [target] be the directory after [path.normalize] and
    [path.resolve].  The first shell call changes into [target], and every
    call is that change, the [pwd], the recursive creation of [target], or
    the clone.  When the change succeeds nothing is created.  When it fails,
    [target] is created once: if that fails the run ends there with
    ERROR_INVALID_TARGET_DIR; otherwise the change is tried once more, and
    if it fails again the run ends there with ERROR_NO_TARGET_DIR.  So the
    directory is changed into at most twice and created at most once.
    Whenever the clone command is the last call, the run ends normally if
    the clone succeeded and with the error that names [target] as a
    destination that is not empty if it failed. *)
Theorem gitClone_directory_fallback
    (gitRemoteUri targetDirectory : string) (w : oracle)
    (Hdir : trim targetDirectory <> "") :
  let target := path_resolve (path_normalize targetDirectory) in
  let clone := Exec ("git clone " +:+ gitRemoteUri) in
  let result := run (gitClone (JStr gitRemoteUri) (JStr targetDirectory)) w [] in
  (exists rest, fst result = Cd target :: rest)
  /\ Forall (fun c => c = Cd target \/ c = Pwd \/ c = Mkdir "-p" target \/ c = clone)
            (fst result)
  /\ (count_occ shellCall_eq_dec (fst result) (Cd target) <= 2)%nat
  /\ (count_occ shellCall_eq_dec (fst result) (Mkdir "-p" target) <= 1)%nat
  /\ (code (w [] (Cd target)) = 0 -> code (w [Cd target] Pwd) = 0 ->
      fst result = [Cd target; Pwd; clone])
  /\ (code (w [] (Cd target)) <> 0 ->
      code (w [Cd target] (Mkdir "-p" target)) <> 0 ->
      result = ([Cd target; Mkdir "-p" target], Throw INVALID_TARGET_DIR))
  /\ (code (w [] (Cd target)) <> 0 ->
      code (w [Cd target] (Mkdir "-p" target)) = 0 ->
      code (w [Cd target; Mkdir "-p" target] (Cd target)) <> 0 ->
      result = ([Cd target; Mkdir "-p" target; Cd target], Throw NO_TARGET_DIR))
  /\ (code (w [] (Cd target)) <> 0 ->
      code (w [Cd target] (Mkdir "-p" target)) = 0 ->
      code (w [Cd target; Mkdir "-p" target] (Cd target)) = 0 ->
      fst result = [Cd target; Mkdir "-p" target; Cd target; clone])
  /\ (forall before, fst result = (before ++ [clone])%list ->
      code (w before clone) <> 0 ->
      snd result = Throw (DESTINATION_NOT_EMPTY target))
  /\ (forall before, fst result = (before ++ [clone])%list ->
      code (w before clone) = 0 ->
      snd result = Normal tt).
Proof.
  intros target clone result. unfold result.
  rewrite gitClone_run by done. cbv zeta. fold target. fold clone. cbn [app].
  assert (Hlast : forall (l before : list shellCall) (c : shellCall),
             (l ++ [c])%list = (before ++ [clone])%list -> before = l /\ c = clone).
  { intros l before c H. by apply app_inj_tail in H as [-> ->]. }
  destruct (Z.eqb_spec (code (w [] (Cd target))) 0) as [Hcd|Hcd];
    [destruct (Z.eqb_spec (code (w [Cd target] Pwd)) 0) as [Hpwd|Hpwd];
     [|destruct (Z.eqb_spec (code (w [Cd target; Pwd] (Mkdir "-p" target))) 0)
         as [Hmk|Hmk];
       [destruct (Z.eqb_spec
                    (code (w [Cd target; Pwd; Mkdir "-p" target] (Cd target))) 0)
          as [Hcd2|Hcd2]|]]
    |destruct (Z.eqb_spec (code (w [Cd target] (Mkdir "-p" target))) 0)
        as [Hmk|Hmk];
      [destruct (Z.eqb_spec
                   (code (w [Cd target; Mkdir "-p" target] (Cd target))) 0)
         as [Hcd2|Hcd2]|]];
    cbn [app fst snd];
    (split; [eexists; reflexivity|]);
    (split; [repeat constructor; tauto|]);
    (split; [unfold clone; cbn [count_occ]; repeat case_match; try done; lia|]);
    (split; [unfold clone; cbn [count_occ]; repeat case_match; try done; lia|]);
    repeat split; try done; try (intros; congruence).
  all: intros before Heq Hc.
  all: try (apply (Hlast [Cd target; Mkdir "-p" target]) in Heq as [_ Heq]; discriminate).
  all: try (apply (Hlast [Cd target; Pwd; Mkdir "-p" target]) in Heq as [_ Heq]; discriminate).
  all: try (apply (Hlast [Cd target]) in Heq as [_ Heq]; discriminate).
  all: try (apply (Hlast [Cd target; Pwd]) in Heq as [_ Heq]; discriminate).
  all: try (apply (Hlast [Cd target; Pwd]) in Heq as [-> _]).
  all: try (apply (Hlast [Cd target; Mkdir "-p" target; Cd target]) in Heq as [-> _]).
  all: try (apply (Hlast [Cd target; Pwd; Mkdir "-p" target; Cd target]) in Heq as [-> _]).
  all: try (apply Z.eqb_neq in Hc; by rewrite Hc).
  all: try (apply Z.eqb_eq in Hc; by rewrite Hc).
Qed.

(** *** What [trim] takes for blank *)

Lemma ascii_of_code (a : ascii) (n : nat) :
  Nat.eqb (nat_of_ascii a) n = true -> a = ascii_of_nat n.
Proof.
  intros H%Nat.eqb_eq. rewrite <- H. symmetry. apply ascii_nat_embedding.
Qed.

Lemma ascii_in_range (a : ascii) (lo hi : nat) :
  (Nat.leb lo (nat_of_ascii a) && Nat.leb (nat_of_ascii a) hi)%bool = true ->
  exists n, (lo <= n <= hi)%nat /\ a = ascii_of_nat n.
Proof.
  intros [H1%Nat.leb_le H2%Nat.leb_le]%andb_true_iff.
  exists (nat_of_ascii a). split; [lia|]. symmetry. apply ascii_nat_embedding.
Qed.

Local Ltac in_white_space :=
  vm_compute; repeat (first [left; reflexivity | right]).

Lemma is_space_white_space (a : ascii) :
  is_space a = true -> In (String a "") white_space.
Proof.
  unfold is_space. cbv zeta. intros [H|H]%orb_true_iff.
  - apply ascii_of_code in H as ->. in_white_space.
  - apply ascii_in_range in H as (n & Hn & ->).
    assert (n = 9 \/ n = 10 \/ n = 11 \/ n = 12 \/ n = 13)%nat as Hcases by lia.
    decompose [or] Hcases; subst n; in_white_space.
Qed.

Lemma is_space2_white_space (a b : ascii) :
  is_space2 a b = true -> In (String a (String b "")) white_space.
Proof.
  unfold is_space2. intros [Ha Hb]%andb_true_iff.
  apply ascii_of_code in Ha as ->. apply ascii_of_code in Hb as ->. in_white_space.
Qed.

Lemma is_space3_white_space (a b c : ascii) :
  is_space3 a b c = true -> In (String a (String b (String c ""))) white_space.
Proof.
  unfold is_space3. cbv zeta. rewrite !orb_true_iff, !andb_true_iff.
  intros [[[[[[Ha Hb] Hc]|[[Ha Hb] Hc]]|[[Ha Hb] Hc]]|[[Ha Hb] Hc]]|[[Ha Hb] Hc]];
    apply ascii_of_code in Ha as ->; apply ascii_of_code in Hb as ->;
    try (apply ascii_of_code in Hc as ->; in_white_space).
  rewrite !orb_true_iff in Hc. destruct Hc as [[[Hc|Hc]|Hc]|Hc];
    try (apply ascii_of_code in Hc as ->; in_white_space).
  apply ascii_in_range in Hc as (n & Hn & ->).
  assert (n = 128 \/ n = 129 \/ n = 130 \/ n = 131 \/ n = 132 \/ n = 133
          \/ n = 134 \/ n = 135 \/ n = 136 \/ n = 137 \/ n = 138)%nat
    as Hcases by lia.
  decompose [or] Hcases; subst n; in_white_space.
Qed.

(** One step of [trim_start]: the string does not begin with white space
    and stays, or it begins with white space and goes on behind it. *)
Lemma trim_start_cases (s : string) :
  trim_start s = s
  \/ exists w rest,
       In w white_space /\ s = w +:+ rest /\ trim_start s = trim_start rest.
Proof.
  destruct s as [|a r1]; [by left|]. cbn [trim_start].
  destruct (is_space a) eqn:Ha.
  { right. exists (String a ""), r1.
    split; [by apply is_space_white_space|]. by split. }
  destruct r1 as [|b r2]; [by left|].
  destruct (is_space2 a b) eqn:Hab.
  { right. exists (String a (String b "")), r2.
    split; [by apply is_space2_white_space|]. by split. }
  destruct r2 as [|c r3]; [by left|].
  destruct (is_space3 a b c) eqn:Habc; [|by left].
  right. exists (String a (String b (String c ""))), r3.
  split; [by apply is_space3_white_space|]. by split.
Qed.

Lemma trim_start_white_space (w rest : string) :
  In w white_space -> trim_start (w +:+ rest) = trim_start rest.
Proof.
  unfold white_space. cbn [map In]. intros H.
  decompose [or] H; try done; subst w; reflexivity.
Qed.

Lemma white_space_not_empty (w : string) :
  In w white_space -> (0 < String.length w)%nat.
Proof.
  unfold white_space. cbn [map In]. intros H.
  decompose [or] H; try done; subst w; cbn; lia.
Qed.

Lemma trim_start_blank (s : string) :
  trim_start s = "" <-> only_white_space s.
Proof.
  split.
  - remember (String.length s) as n eqn:Hn. revert s Hn.
    induction n as [n IH] using lt_wf_ind. intros s Hn Hs.
    destruct (trim_start_cases s) as [Hsame|(w & rest & Hw & -> & Hstep)].
    + exists []. split; [constructor|]. by rewrite <- Hsame.
    + destruct (IH (String.length rest)) with (s := rest) as (parts & Hparts & ->);
        [|reflexivity|by rewrite <- Hstep|].
      * subst n. rewrite length_append.
        pose proof (white_space_not_empty w Hw). lia.
      * exists (w :: parts). split; [by constructor|reflexivity].
  - intros (parts & Hparts & ->).
    induction Hparts as [|w parts Hw _ IH]; [reflexivity|].
    cbn [fold_right]. by rewrite trim_start_white_space.
Qed.

Lemma trim_start_idempotent (s : string) :
  trim_start (trim_start s) = trim_start s.
Proof.
  remember (String.length s) as n eqn:Hn. revert s Hn.
  induction n as [n IH] using lt_wf_ind. intros s Hn.
  destruct (trim_start_cases s) as [Hsame|(w & rest & Hw & -> & Hstep)].
  - by rewrite !Hsame.
  - rewrite Hstep. apply (IH (String.length rest)); [|reflexivity].
    subst n. rewrite length_append.
    pose proof (white_space_not_empty w Hw). lia.
Qed.

(** [trim] leaves nothing exactly of the strings that are empty or
    blank. *)
Lemma trim_blank (s : string) : trim s = "" <-> only_white_space s.
Proof.
  rewrite <- trim_start_blank. unfold trim.
  assert (Hend : forall t, trim_end t = "" <-> trim_start t = "").
  { intros [|c rest]; [done|]. cbn [trim_end]. unfold blank.
    destruct (decide (trim_start (String c rest) = "")) as [He|Hne]; [done|].
    split; [discriminate|done]. }
  by rewrite Hend, trim_start_idempotent.
Qed.

Lemma unusable_spec (v : value) :
  unusable v <-> not_string_or_empty v = true.
Proof.
  unfold unusable. destruct v as [| | | |s|]; cbn; try (split; [done|by left]).
  destruct (decide (s = "")) as [->|Hs]; split; try done.
  - by right.
  - intros [H|H]; [done|]. by injection H.
Qed.

(** C9, as amended.  [gitInit], [gitAddAndCommit] and [gitRemoteAddOrigin]
    throw a TypeError, before any shell call, when one of their parameters
    is not a string or is the empty string.  [gitClone] throws a TypeError,
    before any shell call, when the remote is not a string or when a
    directory is given that is not a string; and it throws a plain Error,
    ERROR_INVALID_VALUE, before any shell call, when the directory is empty
    or blank: it holds nothing but white space and line terminators, those
    beyond ASCII included (a no-break space, say), which are the strings of
    which [trim] leaves nothing.  A directory that is left out is the
    current one. *)
Theorem provisioner_rejects_parameters (w : oracle) :
  (forall dir, unusable dir ->
     run (gitInit dir) w [] = ([], Throw (ERROR_INVALID_TYPE "targetDirectory" dir)))
  /\ (forall dir msg, unusable dir \/ unusable msg ->
       exists text, run (gitAddAndCommit dir msg) w [] = ([], Throw (TypeError text)))
  /\ (forall dir uri, unusable dir \/ unusable uri ->
       exists text, run (gitRemoteAddOrigin dir uri) w [] = ([], Throw (TypeError text)))
  /\ (forall uri dir, typeof uri <> "string"
                      \/ (dir <> JUndefined /\ typeof dir <> "string") ->
       run (gitClone uri dir) w [] = ([], Throw (TypeError "ERROR_UNEXPECTED_TYPE")))
  /\ (forall uri dir, only_white_space dir ->
       run (gitClone (JStr uri) (JStr dir)) w [] = ([], Throw (Error "ERROR_INVALID_VALUE")))
  /\ (forall dir, only_white_space dir <-> trim dir = "")
  /\ Forall only_white_space
        ["";  "   "; no_break_space; line_separator; ideographic_space; byte_order_mark]
  /\ (forall uri, gitClone uri JUndefined = gitClone uri (JStr ".")).
Proof.
  split; [|split; [|split; [|split; [|split; [|split; [|split]]]]]].
  - intros dir H%unusable_spec. unfold gitInit. by rewrite H.
  - intros dir msg H. unfold gitAddAndCommit.
    destruct (not_string_or_empty dir) eqn:Hd; [by eexists|].
    destruct H as [H%unusable_spec|H%unusable_spec]; [congruence|].
    rewrite H. by eexists.
  - intros dir uri H. unfold gitRemoteAddOrigin.
    destruct (not_string_or_empty dir) eqn:Hd; [by eexists|].
    destruct H as [H%unusable_spec|H%unusable_spec]; [congruence|].
    rewrite H. by eexists.
  - intros uri dir [H|[H1 H2]]; unfold Git.gitClone.
    + destruct uri; try done; by destruct dir.
    + destruct dir; try done; by destruct uri.
  - intros uri dir H%trim_blank. unfold Git.gitClone.
    by destruct (decide (trim dir = "")).
  - intros dir. symmetry. apply trim_blank.
  - repeat constructor; by apply trim_blank.
  - reflexivity.
Qed.

(** A directory that is left out is the current one. *)
Lemma gitClone_default_directory (gitRemoteUri : value) :
  gitClone gitRemoteUri JUndefined = gitClone gitRemoteUri (JStr ".").
Proof. reflexivity. Qed.

End ProvisionerProperties.

(** C9, the counterexample.  An empty target directory makes [gitClone]
    throw before any shell call, but what it throws is a plain Error and no
    TypeError. *)
Lemma gitClone_empty_directory_is_no_TypeError :
  let outcome :=
    run (Git.gitClone (fun p => p) (resolve_in "/home/demo")
           (JStr "https://example.com/org/my-repo.git") (JStr ""))
        all_succeed [] in
  unusable (JStr "")
  /\ outcome = ([], Throw (Error "ERROR_INVALID_VALUE"))
  /\ ~ (exists text, snd outcome = Throw (TypeError text)).
Proof.
  split; [by right|]. split; [reflexivity|].
  intros [text H]. cbn in H. discriminate.
Qed.

(** The case the amended C9 leaves out: an empty remote passes the checks
    of [gitClone] and reaches the shell. *)
Lemma gitClone_empty_remote_reaches_shell :
  run (Git.gitClone (fun p => p) (resolve_in "/home/demo") (JStr "") (JStr "work"))
      all_succeed []
  = ([Cd "/home/demo/work"; Pwd; Exec "git clone "], Normal tt).
Proof. reflexivity. Qed.

(** Three worlds for [gitClone]: the directory cannot be created; it can be
    created but never entered; it is there but the clone fails. *)
Lemma gitClone_directory_fallback_witness :
  let uri := "https://example.com/org/my-repo.git" in
  let target := "/home/demo/work" in
  let clone := Exec "git clone https://example.com/org/my-repo.git" in
  let run_in (w : oracle) :=
    run (Git.gitClone (fun p => p) (resolve_in "/home/demo") (JStr uri) (JStr "work"))
        w [] in
  let read_only : oracle :=
    fun _ c => match c with Cd _ | Mkdir _ _ => exit_with 1 | _ => exit_with 0 end in
  let unreachable : oracle :=
    fun _ c => match c with Cd _ => exit_with 1 | _ => exit_with 0 end in
  let occupied : oracle :=
    fun _ c => match c with Exec _ => exit_with 128 | _ => exit_with 0 end in
  trim "work" <> ""
  /\ run_in read_only = ([Cd target; Mkdir "-p" target], Throw INVALID_TARGET_DIR)
  /\ run_in unreachable
     = ([Cd target; Mkdir "-p" target; Cd target], Throw NO_TARGET_DIR)
  /\ fst (run_in occupied) = [Cd target; Pwd; clone]
  /\ snd (run_in occupied) = Throw (DESTINATION_NOT_EMPTY target).
Proof.
  intros uri target clone run_in read_only unreachable occupied.
  assert (Hdir : trim "work" <> "") by (vm_compute; discriminate).
  split; [exact Hdir|].
  pose proof (gitClone_directory_fallback (fun p => p) (resolve_in "/home/demo")
                uri "work" read_only Hdir) as (_ & _ & _ & _ & _ & H1 & _).
  pose proof (gitClone_directory_fallback (fun p => p) (resolve_in "/home/demo")
                uri "work" unreachable Hdir) as (_ & _ & _ & _ & _ & _ & H2 & _).
  pose proof (gitClone_directory_fallback (fun p => p) (resolve_in "/home/demo")
                uri "work" occupied Hdir) as (_ & _ & _ & _ & H3 & _ & _ & _ & H4 & _).
  split; [apply H1; vm_compute; discriminate|].
  split; [apply H2; vm_compute; (reflexivity || discriminate)|].
  assert (H3' := H3 eq_refl eq_refl).
  split; [exact H3'|].
  apply (H4 [Cd target; Pwd]); [exact H3'|vm_compute; discriminate].
Defined.

(** What [trim] takes for blank: ASCII white space, and the white space and
    the line terminators beyond ASCII; a letter between blanks stays. *)
Example trim_white_space :
  trim "   " = ""
  /\ trim (String "009" (String "010" (String "013" ""))) = ""
  /\ trim no_break_space = ""
  /\ trim line_separator = ""
  /\ trim ideographic_space = ""
  /\ trim byte_order_mark = ""
  /\ trim (" " +:+ no_break_space +:+ "work" +:+ ideographic_space +:+ " ") = "work"
  /\ trim "my work " = "my work".
Proof. vm_compute. repeat split. Qed.

(** A directory that is nothing but a no-break space is rejected like the
    empty one, before any shell call. *)
Example gitClone_no_break_space_directory :
  run (Git.gitClone (fun p => p) (resolve_in "/home/demo")
         (JStr "https://example.com/org/my-repo.git") (JStr no_break_space))
      all_succeed []
  = ([], Throw (Error "ERROR_INVALID_VALUE")).
Proof. reflexivity. Qed.

(** Each operation of the provisioner on a parameter it rejects. *)
Lemma provisioner_rejects_parameters_witness :
  unusable (JNum (Num 5))
  /\ unusable (JStr "")
  /\ typeof JNull <> "string"
  /\ only_white_space "   "
  /\ only_white_space no_break_space
  /\ run (gitInit (JNum (Num 5))) all_succeed []
     = ([], Throw (ERROR_INVALID_TYPE "targetDirectory" (JNum (Num 5))))
  /\ (exists text, run (gitAddAndCommit (JStr "work") (JStr "")) all_succeed []
                   = ([], Throw (TypeError text)))
  /\ (exists text, run (gitRemoteAddOrigin (JStr "") (JStr "git@example.com:org/r.git"))
                       all_succeed []
                   = ([], Throw (TypeError text)))
  /\ run (Git.gitClone (fun p => p) (resolve_in "/home/demo") JNull (JStr "work"))
         all_succeed []
     = ([], Throw (TypeError "ERROR_UNEXPECTED_TYPE"))
  /\ run (Git.gitClone (fun p => p) (resolve_in "/home/demo")
            (JStr "https://example.com/org/my-repo.git") (JStr "   "))
         all_succeed []
     = ([], Throw (Error "ERROR_INVALID_VALUE"))
  /\ run (Git.gitClone (fun p => p) (resolve_in "/home/demo")
            (JStr "https://example.com/org/my-repo.git") (JStr no_break_space))
         all_succeed []
     = ([], Throw (Error "ERROR_INVALID_VALUE")).
Proof.
  assert (H5 : unusable (JNum (Num 5))) by (left; discriminate).
  assert (He : unusable (JStr "")) by (right; reflexivity).
  assert (Hn : typeof JNull <> "string") by discriminate.
  assert (Ht : only_white_space "   ").
  { exists [" "; " "; " "]. split; [|reflexivity].
    repeat constructor; vm_compute; tauto. }
  assert (Hs : only_white_space no_break_space).
  { exists [no_break_space]. split; [|reflexivity].
    repeat constructor; vm_compute; tauto. }
  destruct (provisioner_rejects_parameters (fun p => p) (resolve_in "/home/demo")
              all_succeed) as (Hinit & Hcommit & Hremote & Hclone & Hblank & _ & _ & _).
  split; [exact H5|]. split; [exact He|]. split; [exact Hn|]. split; [exact Ht|].
  split; [exact Hs|].
  split; [exact (Hinit _ H5)|].
  split; [exact (Hcommit (JStr "work") (JStr "") (or_intror He))|].
  split; [exact (Hremote (JStr "") (JStr "git@example.com:org/r.git") (or_introl He))|].
  split; [exact (Hclone JNull (JStr "work") (or_introl Hn))|].
  split; [exact (Hblank "https://example.com/org/my-repo.git" "   " Ht)|].
  exact (Hblank "https://example.com/org/my-repo.git" no_break_space Hs).
Defined.

(* ===================================================================== *)
(** ** Further properties of the project configuration *)
(* ===================================================================== *)

Section ConfigurationProperties.

Variable path_join : string -> string -> string.

Lemma lnot_falsy_values (v : value) : lnot v = true <-> In v falsy_values.
Proof.
  unfold falsy_values. cbn [In]. split.
  - destruct v as [| |[]|[|z]|s|]; cbn; try done; try tauto.
    + destruct (Z.eqb_spec z 0) as [->|]; [tauto|done].
    + destruct (decide (s = "")) as [->|]; [tauto|done].
  - intros [<-|[<-|[<-|[<-|[<-|[<-|[]]]]]]]; reflexivity.
Qed.

Lemma keys_filter_sublist (p : string * value -> bool) (l : list (string * value)) :
  sublist (map fst (List.filter p l)) (map fst l).
Proof.
  induction l as [|kv l IH]; cbn [List.filter map]; [constructor|].
  destruct (p kv); cbn [map]; [by apply sublist_skip|by apply sublist_cons].
Qed.

(** X1.  [validateAppxDemoConfig] answers the keys of exactly the settings
    that JavaScript takes for false (absent, [null], [false], [NaN], 0 and
    the empty string), in the order in which the settings are declared, and
    it answers [true] exactly when there is no such setting.  A string of
    blanks counts as a value. *)
Theorem validateAppxDemoConfig_reports_falsy (c : AppxDemoProjectConfig) :
  validateAppxDemoConfig c
  = match falsy_keys c with [] => ValidTrue | _ => InvalidKeys (falsy_keys c) end
  /\ (forall k, In k (falsy_keys c) <->
                exists v, In (k, v) (required_fields c) /\ In v falsy_values)
  /\ sublist (falsy_keys c)
       ["demoAlias"; "demoConfig"; "demoTitle"; "demoType"; "demoVersion";
        "gitHubUrl"; "gitRemoteUri"; "partnerAlias"; "partnerName"; "schemaVersion"]
  /\ (validateAppxDemoConfig c = ValidTrue <->
      forall k v, In (k, v) (required_fields c) -> ~ In v falsy_values)
  /\ ~ In (JStr "   ") falsy_values.
Proof.
  assert (Hin : forall k, In k (falsy_keys c) <->
                  exists v, In (k, v) (required_fields c) /\ In v falsy_values).
  { intros k. unfold falsy_keys. rewrite in_map_iff. split.
    - intros ([k' v] & Heq & Hin). cbn in Heq. subst k'.
      apply filter_In in Hin as [Hin Hv]. exists v. split; [done|].
      by apply lnot_falsy_values.
    - intros (v & Hin & Hv). exists (k, v). split; [done|].
      apply filter_In. split; [done|]. by apply lnot_falsy_values. }
  pose proof (validateAppxDemoConfig_falsy c) as Hv. cbv zeta in Hv.
  fold (falsy_keys c) in Hv.
  split; [exact Hv|]. split; [exact Hin|]. split; [|split].
  - exact (keys_filter_sublist _ (required_fields c)).
  - rewrite Hv. split.
    + intros Hvalid k v Hkv Hfalsy.
      assert (In k (falsy_keys c)) as Hk by (apply Hin; eauto).
      destruct (falsy_keys c); [done|discriminate].
    + intros Hnone. destruct (falsy_keys c) as [|k rest] eqn:E; [done|].
      exfalso. assert (In k (k :: rest)) as Hk by (by left).
      apply Hin in Hk as (v & Hkv & Hfalsy). by apply (Hnone k v).
  - unfold falsy_values. cbn [In]. intros H. decompose [or] H; done.
Qed.

Lemma validateAppxDemoConfig_ValidTrue (c : AppxDemoProjectConfig) :
  validateAppxDemoConfig c = ValidTrue <->
  forallb (fun kv => negb (lnot (snd kv))) (required_fields c) = true.
Proof.
  pose proof (validateAppxDemoConfig_falsy c) as Hv. cbv zeta in Hv. rewrite Hv.
  set (l := required_fields c). clearbody l. clear Hv. split.
  - intros H. apply forallb_forall. intros kv Hin.
    destruct (lnot (snd kv)) eqn:E; [|done]. exfalso.
    assert (In (fst kv) (map fst (List.filter (fun kv => lnot (snd kv)) l))) as Hk.
    { apply in_map. apply filter_In. by split. }
    destruct (map fst _); [done|discriminate].
  - intros H. rewrite forallb_forall in H.
    destruct (List.filter (fun kv => lnot (snd kv)) l) as [|kv rest] eqn:E; [done|].
    exfalso. assert (In kv (List.filter (fun kv => lnot (snd kv)) l)) as Hin
      by (rewrite E; by left).
    apply filter_In in Hin as [Hin Hf]. apply H in Hin. by rewrite Hf in Hin.
Qed.


(** X3.  Whatever [resolve] returns is an idle project without an intent
    whose project configuration is complete: the configuration that was
    given passed the check, a non-empty override has replaced [demoConfig]
    and nothing else, and the configuration of the project passes the check
    again. *)
Theorem resolve_returns_complete_idle_project
    (projectPath : string) (found : bool) (c : AppxDemoProjectConfig)
    (localConfig : AppxDemoLocalConfig) (demoConfigOverride : string)
    (this : AppxDemoProject)
    (Hresolved : Adk.resolve path_join projectPath found c localConfig
                   demoConfigOverride = Normal this) :
  found = true
  /\ validateAppxDemoConfig c = ValidTrue
  /\ executingSequence this = false
  /\ executionIntent this = NOT_SPECIFIED
  /\ path (context this) = projectPath
  /\ config_local (context this) = localConfig
  /\ validateAppxDemoConfig (config_project (context this)) = ValidTrue
  /\ demoConfig (config_project (context this))
     = (if decide (demoConfigOverride = "") then demoConfig c
        else JStr demoConfigOverride)
  /\ (forall k v, k <> "demoConfig" ->
        (In (k, v) (required_fields (config_project (context this)))
         <-> In (k, v) (required_fields c))).
Proof.
  unfold Adk.resolve in Hresolved.
  destruct found; [|discriminate]. cbn [negb] in Hresolved.
  destruct (validateAppxDemoConfig c) eqn:Hv; [|discriminate].
  injection Hresolved as <-. cbn [constructed context executingSequence
    executionIntent path config_local config_project].
  repeat (split; [reflexivity|]).
  unfold override_demoConfig.
  destruct (decide (demoConfigOverride = "")) as [->|Hne].
  - split; [exact Hv|]. split; [reflexivity|]. done.
  - split; [|split; [reflexivity|]].
    + apply validateAppxDemoConfig_ValidTrue in Hv.
      apply validateAppxDemoConfig_ValidTrue.
      unfold required_fields in *. cbn [forallb snd] in *.
      cbn [demoAlias demoConfig demoTitle demoType demoVersion gitHubUrl
           gitRemoteUri partnerAlias partnerName schemaVersion].
      repeat (apply andb_true_iff in Hv as [? Hv]).
      repeat (apply andb_true_iff; split); try done.
      cbn. by destruct (decide (demoConfigOverride = "")).
    + intros k v Hk. unfold required_fields. cbn [In].
      cbn [demoAlias demoConfig demoTitle demoType demoVersion gitHubUrl
           gitRemoteUri partnerAlias partnerName schemaVersion].
      split; intros H; decompose [or] H; try tauto; congruence.
Qed.

End ConfigurationProperties.


(** The complete sample configuration, resolved with an override. *)
Lemma resolve_returns_complete_idle_project_witness :
  let this := constructed
                {| path := "/home/demo/project";
                   config_project := override_demoConfig "other-config.json" sample_config;
                   config_local := sample_local |} in
  Adk.resolve slash_join "/home/demo/project" true sample_config sample_local
    "other-config.json" = Normal this
  /\ validateAppxDemoConfig (config_project (context this)) = ValidTrue
  /\ demoConfig (config_project (context this)) = JStr "other-config.json".
Proof.
  intros this.
  assert (H : Adk.resolve slash_join "/home/demo/project" true sample_config
                sample_local "other-config.json" = Normal this) by reflexivity.
  split; [exact H|].
  destruct (resolve_returns_complete_idle_project slash_join "/home/demo/project"
              true sample_config sample_local "other-config.json" this H)
    as (_ & _ & _ & _ & _ & _ & Hv & Hd & _).
  split; [exact Hv|exact Hd].
Defined.

(* ===================================================================== *)
(** ** Further properties of the orchestrator *)
(* ===================================================================== *)

Section OrchestratorProperties.

Variable path_join : string -> string -> string.
Variable FalconStatusReport : Type.
Variable readConfigFile : string -> value -> completion FalconCommandSequence.
Variable execute :
  FalconCommandSequence -> FalconSequenceContext -> completion FalconStatusReport.

Local Abbreviation deployDemo :=
  (Adk.deployDemo path_join FalconStatusReport readConfigFile execute).
Local Abbreviation validateDemo :=
  (Adk.validateDemo path_join FalconStatusReport readConfigFile execute).
Local Abbreviation invoke :=
  (Adk.invoke path_join FalconStatusReport readConfigFile execute).
Local Abbreviation after :=
  (Adk.after path_join FalconStatusReport readConfigFile execute).

(** X4.  [validateDemoBuildConfig] looks at the shape of [sequenceGroups]
    only: it returns [true] exactly for a non-empty array, whatever the
    groups hold, it throws for an empty array and for anything that is no
    array, naming the type it found, and it never answers a list of keys. *)
Theorem validateDemoBuildConfig_checks_shape_only (seq : FalconCommandSequence) :
  (validateDemoBuildConfig seq = Normal ValidTrue <->
   exists g groups, sequenceGroups seq = GroupArray (g :: groups))
  /\ (forall keys, validateDemoBuildConfig seq <> Normal (InvalidKeys keys))
  /\ (sequenceGroups seq = GroupArray [] <->
      validateDemoBuildConfig seq
      = Throw (Error "ERROR_INVALID_CONFIG: 'sequenceGroups' array must contain at least one member"))
  /\ (forall v, sequenceGroups seq = NoArray v ->
      validateDemoBuildConfig seq
      = Throw (Error ("ERROR_INVALID_CONFIG: 'sequenceGroups' must be type 'array' not '"
                      +:+ typeof v +:+ "'"))).
Proof.
  destruct seq as [opts [[|g groups]|v]]; unfold validateDemoBuildConfig;
    cbn [sequenceGroups typeof_sequenceGroups].
  - repeat split; try done.
    + intros (g & groups & H). done.
  - destruct (Z.ltb_spec (Z.of_nat (length (g :: groups))) 1) as [H|H];
      [cbn [length] in H; lia|].
    repeat split; try done. by exists g, groups.
  - repeat split; try done.
    + intros (g & groups & H). done.
    + intros v' [= <-]. done.
Qed.

(** A first call on a fresh instance is [deployDemo] behind the guard, with
    the intent of the call. *)
Lemma invoke_fresh (c : AppxDemoProjectContext) (first : call) :
  invoke first (constructed c) = deployDemo (instance c (intent_of_call first) true).
Proof. by destruct first. Qed.

(** A first call on a fresh instance whose sequence loads with a non-empty
    array of groups ends as the assembly and the executor end. *)
Lemma first_call_loaded (c : AppxDemoProjectContext) (first : call)
    (fields : optionsField)
    (g : FalconCommandSequenceGroup) (groups : list FalconCommandSequenceGroup) :
  readConfigFile (path_join (path c) "demo-config") (demoConfig (config_project c))
  = Normal {| options := fields; sequenceGroups := GroupArray (g :: groups) |} ->
  let intent := intent_of_call first in
  let sequenceContext :=
    sequence_context path_join c (alias_of_intent (config_local c) intent)
      (bool_decide (intent = VALIDATE_DEMO)) in
  invoke first (constructed c)
  = (instance c intent true,
     and_then (deployDemo_rebuild intent sequenceContext
                 {| options := fields; sequenceGroups := GroupArray (g :: groups) |})
              (fun assembled => execute assembled sequenceContext)).
Proof.
  intros Hload intent sequenceContext. rewrite invoke_fresh. fold intent.
  rewrite (deployDemo_in_progress path_join FalconStatusReport readConfigFile
             execute c intent) by (unfold intent; destruct first; tauto).
  cbv zeta. fold sequenceContext. rewrite Hload. cbn [and_then].
  by rewrite validateDemoBuildConfig_nonempty.
Qed.

(** X5.  [validateDemo] on a fresh project whose sequence loads with an
    object of options and a non-empty array of groups: the project is left
    in progress with VALIDATE_DEMO, and the result is what the executor
    answers for the context that targets the validation org as a scratch
    org and for the loaded sequence with the coerced option written and,
    when that option is true, the group of the two steps delete-scratch-org
    and create-scratch-org for the validation org in front. *)
Theorem validateDemo_end_to_end
    (c : AppxDemoProjectContext) (opts : gmap string value)
    (g : FalconCommandSequenceGroup) (groups : list FalconCommandSequenceGroup)
    (Hload : readConfigFile (path_join (path c) "demo-config")
               (demoConfig (config_project c))
             = Normal {| options := OptionsObject opts;
                         sequenceGroups := GroupArray (g :: groups) |}) :
  let rebuild := rebuildValidationOrg_coerced opts in
  exists group delete create,
    sequenceSteps group = [delete; create]
    /\ action delete = "delete-scratch-org"
    /\ action create = "create-scratch-org"
    /\ step_options delete
       = rebuild_parameters (demoValidationOrgAlias (config_local c)) opts
    /\ step_options create
       = rebuild_parameters (demoValidationOrgAlias (config_local c)) opts
    /\ validateDemo (constructed c)
       = (instance c VALIDATE_DEMO true,
          execute {| options :=
                       OptionsObject (<["rebuildValidationOrg" := JBool rebuild]> opts);
                     sequenceGroups :=
                       GroupArray (if rebuild then group :: g :: groups
                                   else g :: groups) |}
                  (sequence_context path_join c
                     (demoValidationOrgAlias (config_local c)) true)).
Proof.
  intros rebuild.
  exists (rebuild_group (demoValidationOrgAlias (config_local c)) opts).
  eexists _, _. split; [reflexivity|]. repeat (split; [reflexivity|]).
  change (validateDemo (constructed c)) with (invoke CallValidateDemo (constructed c)).
  rewrite (first_call_loaded c CallValidateDemo _ g groups Hload).
  cbn [intent_of_call alias_of_intent]. rewrite bool_decide_eq_true_2 by done.
  by rewrite deployDemo_rebuild_array, bool_decide_eq_true_2.
Qed.

(** X6.  [deployDemo] on a fresh project whose sequence loads with an
    object of options and a non-empty array of groups: the project is left
    in progress with DEPLOY_DEMO, and the result is what the executor
    answers for the context that targets the deployment org, not as a
    scratch org, and for the loaded sequence with its groups as they were
    loaded and the coerced option written. *)
Theorem deployDemo_end_to_end
    (c : AppxDemoProjectContext) (opts : gmap string value)
    (g : FalconCommandSequenceGroup) (groups : list FalconCommandSequenceGroup)
    (Hload : readConfigFile (path_join (path c) "demo-config")
               (demoConfig (config_project c))
             = Normal {| options := OptionsObject opts;
                         sequenceGroups := GroupArray (g :: groups) |}) :
  deployDemo (constructed c)
  = (instance c DEPLOY_DEMO true,
     execute {| options :=
                  OptionsObject
                    (<["rebuildValidationOrg"
                       := JBool (rebuildValidationOrg_coerced opts)]> opts);
                sequenceGroups := GroupArray (g :: groups) |}
             (sequence_context path_join c
                (demoDeploymentOrgAlias (config_local c)) false)).
Proof.
  change (deployDemo (constructed c)) with (invoke CallDeployDemo (constructed c)).
  rewrite (first_call_loaded c CallDeployDemo _ g groups Hload).
  cbn [intent_of_call alias_of_intent]. rewrite bool_decide_eq_false_2 by done.
  by rewrite deployDemo_rebuild_array, bool_decide_eq_false_2.
Qed.

(** X20.  A sequence file that holds a non-empty array of groups and no
    object under [options] (the key is absent, or holds [null], a boolean,
    a number or a string) passes [validateDemoBuildConfig]; the first call
    on a fresh project then ends with a TypeError, whatever the executor
    would do, and the project is left in progress with the intent of the
    call.  When the key is absent the error is the one of reading a
    property of [undefined]. *)
Theorem sequence_without_options_is_fatal
    (c : AppxDemoProjectContext) (first : call) (p : primitive)
    (g : FalconCommandSequenceGroup) (groups : list FalconCommandSequenceGroup)
    (Hload : readConfigFile (path_join (path c) "demo-config")
               (demoConfig (config_project c))
             = Normal {| options := NoObject p;
                         sequenceGroups := GroupArray (g :: groups) |}) :
  validateDemoBuildConfig
    {| options := NoObject p; sequenceGroups := GroupArray (g :: groups) |}
  = Normal ValidTrue
  /\ (exists e,
        exn_class e = TypeErrorClass
        /\ invoke first (constructed c)
           = (instance c (intent_of_call first) true, Throw e))
  /\ (p = PUndefined ->
      invoke first (constructed c)
      = (instance c (intent_of_call first) true,
         Throw (TypeError "Cannot read property 'rebuildValidationOrg' of undefined"))).
Proof.
  split; [apply validateDemoBuildConfig_nonempty|].
  rewrite (first_call_loaded c first _ g groups Hload). split.
  - destruct (deployDemo_rebuild_NoObject (intent_of_call first)
                (sequence_context path_join c
                   (alias_of_intent (config_local c) (intent_of_call first))
                   (bool_decide (intent_of_call first = VALIDATE_DEMO)))
                p (GroupArray (g :: groups))) as (e & Hclass & He).
    exists e. split; [exact Hclass|]. by rewrite He.
  - intros ->. reflexivity.
Qed.

(** X7.  When the sequence file does not load, or loads and fails the
    validation, the first call on a fresh project ends with that very
    error, whatever the executor would do, and the project is left in
    progress all the same: a [validateDemo] on it throws
    ERROR_SEQUENCE_RUNNING. *)
Theorem failed_load_leaves_project_in_progress
    (c : AppxDemoProjectContext) (first : call) (e : exn)
    (Hfail : readConfigFile (path_join (path c) "demo-config")
               (demoConfig (config_project c)) = Throw e
             \/ exists seq,
                  readConfigFile (path_join (path c) "demo-config")
                    (demoConfig (config_project c)) = Normal seq
                  /\ validateDemoBuildConfig seq = Throw e) :
  invoke first (constructed c) = (instance c (intent_of_call first) true, Throw e)
  /\ validateDemo (fst (invoke first (constructed c)))
     = (instance c (intent_of_call first) true, Throw SEQUENCE_RUNNING).
Proof.
  assert (H : invoke first (constructed c)
              = (instance c (intent_of_call first) true, Throw e)).
  { rewrite invoke_fresh. unfold Adk.deployDemo.
    assert (Hctx : exists ctx,
               deployDemo_context path_join (instance c (intent_of_call first) true)
               = (instance c (intent_of_call first) true, Normal ctx)
               /\ configPath ctx = path_join (path c) "demo-config").
    { destruct first; eexists; split; reflexivity. }
    destruct Hctx as (ctx & Hctx & Hpath).
    rewrite (bind_snd _ _ _ _ Hctx).
    cbv beta iota zeta delta [bind deployDemo_sequence gets lift].
    cbn [context instance config_project]. rewrite Hpath.
    destruct Hfail as [-> | (seq & -> & ->)]; reflexivity. }
  split; [exact H|]. by rewrite H.
Qed.

(** X8.  An intent that [setIntent] rejects on an idle project (any intent
    but DEPLOY_DEMO and VALIDATE_DEMO) makes it throw, yet leaves the
    project in progress with that intent; from then on [deployDemo] and
    [validateDemo] both throw and change nothing. *)
Theorem rejected_intent_blocks_project
    (c : AppxDemoProjectContext) (i0 intent : INTENT)
    (Hd : intent <> DEPLOY_DEMO) (Hv : intent <> VALIDATE_DEMO) :
  let blocked := instance c intent true in
  (exists e, setIntent intent (instance c i0 false) = (blocked, Throw e))
  /\ (exists e, deployDemo blocked = (blocked, Throw e))
  /\ validateDemo blocked = (blocked, Throw SEQUENCE_RUNNING).
Proof.
  intros blocked. unfold blocked.
  destruct intent; try done; (split; [by eexists|split; [by eexists|reflexivity]]).
Qed.

(** X9.  Whatever series of [validateDemo] and [deployDemo] a constructed
    project has gone through, it is either untouched or in progress with
    VALIDATE_DEMO or DEPLOY_DEMO, its context is the one it was constructed
    with, and the selection of the target in [deployDemo] succeeds on it:
    the error ERROR_INVALID_INTENT cannot arise from the public methods. *)
Theorem public_calls_keep_intent_valid
    (c : AppxDemoProjectContext) (calls : list call) :
  let this := after calls (constructed c) in
  (this = constructed c
   \/ this = instance c VALIDATE_DEMO true
   \/ this = instance c DEPLOY_DEMO true)
  /\ context this = c
  /\ exists intent sequenceContext,
       (intent = VALIDATE_DEMO \/ intent = DEPLOY_DEMO)
       /\ deployDemo_context path_join this
          = (instance c intent true, Normal sequenceContext)
       /\ targetOrgAlias sequenceContext = alias_of_intent (config_local c) intent.
Proof.
  intros this. unfold this. destruct calls as [|first later].
  - cbn [Adk.after]. split; [by left|]. split; [reflexivity|].
    exists DEPLOY_DEMO. eexists. split; [by right|]. split; reflexivity.
  - cbn [Adk.after].
    rewrite (first_call_state path_join FalconStatusReport readConfigFile execute).
    rewrite (later_calls_state path_join FalconStatusReport readConfigFile execute)
      by (by destruct first).
    destruct first; cbn [intent_of_call].
    + split; [tauto|]. split; [reflexivity|]. exists VALIDATE_DEMO. eexists.
      split; [by left|]. split; reflexivity.
    + split; [tauto|]. split; [reflexivity|]. exists DEPLOY_DEMO. eexists.
      split; [by right|]. split; reflexivity.
Qed.

End OrchestratorProperties.

(** The sample project, whose sequence file holds one group and no option,
    with an executor that counts the groups it is given. *)
Lemma validateDemo_end_to_end_witness :
  let reader := reader_of "/home/demo/project/demo-config" (JStr "demo-config.json")
                  (sample_sequence ∅) in
  reader (slash_join (path sample_project) "demo-config")
         (demoConfig (config_project sample_project))
  = Normal (sample_sequence ∅)
  /\ Adk.validateDemo slash_join nat reader count_groups (constructed sample_project)
     = (instance sample_project VALIDATE_DEMO true, Normal 2%nat).
Proof.
  intros reader.
  assert (H : reader (slash_join (path sample_project) "demo-config")
                     (demoConfig (config_project sample_project))
              = Normal (sample_sequence ∅)) by reflexivity.
  split; [exact H|].
  destruct (validateDemo_end_to_end slash_join nat reader count_groups
              sample_project ∅ sample_group [] H)
    as (group & delete & create & _ & _ & _ & _ & _ & Heq).
  rewrite Heq. reflexivity.
Defined.

Lemma deployDemo_end_to_end_witness :
  let reader := reader_of "/home/demo/project/demo-config" (JStr "demo-config.json")
                  (sample_sequence ∅) in
  reader (slash_join (path sample_project) "demo-config")
         (demoConfig (config_project sample_project))
  = Normal (sample_sequence ∅)
  /\ Adk.deployDemo slash_join nat reader count_groups (constructed sample_project)
     = (instance sample_project DEPLOY_DEMO true, Normal 1%nat).
Proof.
  intros reader.
  assert (H : reader (slash_join (path sample_project) "demo-config")
                     (demoConfig (config_project sample_project))
              = Normal (sample_sequence ∅)) by reflexivity.
  split; [exact H|].
  rewrite (deployDemo_end_to_end slash_join nat reader count_groups
             sample_project ∅ sample_group [] H).
  reflexivity.
Defined.

(** The sample project with its sequence file in another place, and with a
    sequence file that holds no group. *)
Lemma failed_load_leaves_project_in_progress_witness :
  let lost := reader_of "/elsewhere" (JStr "demo-config.json") (sample_sequence ∅) in
  let empty := reader_of "/home/demo/project/demo-config" (JStr "demo-config.json")
                 {| options := OptionsObject ∅; sequenceGroups := GroupArray [] |} in
  lost (slash_join (path sample_project) "demo-config")
       (demoConfig (config_project sample_project))
  = Throw (Error "ENOENT")
  /\ Adk.invoke slash_join nat lost count_groups CallValidateDemo
       (constructed sample_project)
     = (instance sample_project VALIDATE_DEMO true, Throw (Error "ENOENT"))
  /\ Adk.invoke slash_join nat empty count_groups CallDeployDemo
       (constructed sample_project)
     = (instance sample_project DEPLOY_DEMO true,
        Throw (Error "ERROR_INVALID_CONFIG: 'sequenceGroups' array must contain at least one member")).
Proof.
  intros lost empty.
  assert (H : lost (slash_join (path sample_project) "demo-config")
                   (demoConfig (config_project sample_project))
              = Throw (Error "ENOENT")) by reflexivity.
  split; [exact H|]. split.
  - exact (proj1 (failed_load_leaves_project_in_progress slash_join nat lost
                    count_groups sample_project CallValidateDemo _ (or_introl H))).
  - refine (proj1 (failed_load_leaves_project_in_progress slash_join nat empty
                     count_groups sample_project CallDeployDemo _ (or_intror _))).
    exists {| options := OptionsObject ∅; sequenceGroups := GroupArray [] |}. by split.
Defined.

(** The sample project with a sequence file that has no key [options]. *)
Lemma sequence_without_options_is_fatal_witness :
  let reader := reader_of "/home/demo/project/demo-config" (JStr "demo-config.json")
                  sample_sequence_without_options in
  reader (slash_join (path sample_project) "demo-config")
         (demoConfig (config_project sample_project))
  = Normal sample_sequence_without_options
  /\ Adk.invoke slash_join nat reader count_groups CallValidateDemo
       (constructed sample_project)
     = (instance sample_project VALIDATE_DEMO true,
        Throw (TypeError "Cannot read property 'rebuildValidationOrg' of undefined")).
Proof.
  intros reader.
  assert (H : reader (slash_join (path sample_project) "demo-config")
                     (demoConfig (config_project sample_project))
              = Normal sample_sequence_without_options) by reflexivity.
  split; [exact H|].
  destruct (sequence_without_options_is_fatal slash_join nat reader count_groups
              sample_project CallValidateDemo PUndefined sample_group [] H)
    as (_ & _ & Hread).
  exact (Hread eq_refl).
Defined.

Lemma rejected_intent_blocks_project_witness :
  HEALTH_CHECK <> DEPLOY_DEMO
  /\ HEALTH_CHECK <> VALIDATE_DEMO
  /\ (exists e, setIntent HEALTH_CHECK (instance sample_project NOT_SPECIFIED false)
                = (instance sample_project HEALTH_CHECK true, Throw e))
  /\ (exists e, Adk.deployDemo slash_join nat
                  (reader_of "/home/demo/project/demo-config" (JStr "demo-config.json")
                     (sample_sequence ∅))
                  count_groups (instance sample_project HEALTH_CHECK true)
                = (instance sample_project HEALTH_CHECK true, Throw e)).
Proof.
  assert (Hd : HEALTH_CHECK <> DEPLOY_DEMO) by discriminate.
  assert (Hv : HEALTH_CHECK <> VALIDATE_DEMO) by discriminate.
  split; [exact Hd|]. split; [exact Hv|].
  destruct (rejected_intent_blocks_project slash_join nat
              (reader_of "/home/demo/project/demo-config" (JStr "demo-config.json")
                 (sample_sequence ∅))
              count_groups sample_project NOT_SPECIFIED HEALTH_CHECK Hd Hv)
    as (Hs & Hdeploy & _).
  split; [exact Hs|exact Hdeploy].
Defined.

(* ===================================================================== *)
(** ** Further properties of the Git helper *)
(* ===================================================================== *)

Section WrapperProperties.

Lemma run_fatal (c : shellCall) (k : Shell unit) (w : oracle) (log : list shellCall) :
  run (andThen (fatal c) (fun _ => k)) w log
  = if code (w log c) =? 0
    then run k w (log ++ [c])%list
    else ((log ++ [c])%list, Throw (Error (stderr (w log c)))).
Proof. cbn [fatal andThen run]. by destruct (code (w log c) =? 0). Qed.

Lemma not_string_or_empty_string (s : string) :
  s <> "" -> not_string_or_empty (JStr s) = false.
Proof. intros H. cbn. by destruct (decide (s = "")). Qed.

Lemma git_commit_is_not_add (commitMessage : string) :
  git_commit commitMessage <> Exec "git add -A".
Proof.
  unfold git_commit. intros H. apply (f_equal (fun c =>
    match c with Exec command => String.get 4 command | _ => None end)) in H.
  vm_compute in H. discriminate.
Qed.

(** X10.  [gitAddAndCommit] on a directory and a message that are not
    empty changes into the directory, stages, and commits, in this order,
    and stops at the first command that fails: it stages only after the
    change of directory succeeded, it commits only after the staging
    succeeded, and it returns normally exactly when all three succeeded. *)
Theorem gitAddAndCommit_stops_at_first_failure
    (targetDirectory commitMessage : string) (w : oracle)
    (Hdir : targetDirectory <> "") (Hmsg : commitMessage <> "") :
  let cd := Cd targetDirectory in
  let add := Exec "git add -A" in
  let commit := git_commit commitMessage in
  let result := run (gitAddAndCommit (JStr targetDirectory) (JStr commitMessage)) w [] in
  (fst result = [cd] \/ fst result = [cd; add] \/ fst result = [cd; add; commit])
  /\ (In add (fst result) <-> code (w [] cd) = 0)
  /\ (In commit (fst result) <-> code (w [] cd) = 0 /\ code (w [cd] add) = 0)
  /\ (snd result = Normal tt <->
      code (w [] cd) = 0 /\ code (w [cd] add) = 0 /\ code (w [cd; add] commit) = 0).
Proof.
  intros cd add commit result. unfold result, gitAddAndCommit.
  rewrite !not_string_or_empty_string by done. cbn [string_of].
  assert (Hne : commit <> add) by apply git_commit_is_not_add.
  assert (Hne' : commit <> cd) by discriminate.
  change (Exec ("git commit -m " +:+ dquote +:+ commitMessage +:+ dquote)) with commit.
  fold cd. fold add.
  assert (Hne'' : add <> cd) by discriminate.
  clearbody commit add cd. clear result.
  rewrite run_fatal. cbn [app].
  destruct (Z.eqb_spec (code (w [] cd)) 0) as [H1|H1];
    [rewrite run_fatal; cbn [app];
     destruct (Z.eqb_spec (code (w [cd] add)) 0) as [H2|H2];
     [rewrite run_fatal; cbn [app];
      destruct (Z.eqb_spec (code (w [cd; add] commit)) 0) as [H3|H3]|]|];
    cbn [run fst snd In]; (split; [tauto|]); repeat split; intuition congruence.
Qed.

(** X11.  [gitInit] and [gitRemoteAddOrigin] do not create the directory:
    when the change into it fails they throw at once, with that change as
    their only shell call; otherwise they run their one git command, and
    they return normally exactly when it succeeds. *)
Theorem wrappers_need_the_directory
    (targetDirectory gitRemoteUri : string) (w : oracle)
    (Hdir : targetDirectory <> "") (Huri : gitRemoteUri <> "") :
  let cd := Cd targetDirectory in
  let init := run (gitInit (JStr targetDirectory)) w [] in
  let add_origin :=
    run (gitRemoteAddOrigin (JStr targetDirectory) (JStr gitRemoteUri)) w [] in
  (fst init = if code (w [] cd) =? 0 then [cd; Exec "git init"] else [cd])
  /\ (snd init = Normal tt <->
      code (w [] cd) = 0 /\ code (w [cd] (Exec "git init")) = 0)
  /\ (fst add_origin
      = if code (w [] cd) =? 0 then [cd; git_remote_add gitRemoteUri] else [cd])
  /\ (snd add_origin = Normal tt <->
      code (w [] cd) = 0 /\ code (w [cd] (git_remote_add gitRemoteUri)) = 0).
Proof.
  intros cd init add_origin. unfold init, add_origin, gitInit, gitRemoteAddOrigin.
  rewrite !not_string_or_empty_string by done. cbn [string_of].
  change (Exec ("git remote add origin " +:+ gitRemoteUri))
    with (git_remote_add gitRemoteUri).
  fold cd. rewrite !run_fatal. cbn [app].
  destruct (Z.eqb_spec (code (w [] cd)) 0) as [H1|H1];
    [rewrite ?run_fatal; cbn [app];
     destruct (Z.eqb_spec (code (w [cd] (Exec "git init"))) 0) as [H2|H2];
     destruct (Z.eqb_spec (code (w [cd] (git_remote_add gitRemoteUri))) 0) as [H3|H3]|];
    cbn [run fst snd]; repeat split; intuition congruence.
Qed.

(** X12.  [isGitRemoteReadable] on a string never throws: it runs
    [git ls-remote -h] on the URI, as its only shell call, and answers
    whether that command ended with exit code 0. *)
Theorem isGitRemoteReadable_exit_code (gitRemoteUri : string) (w : oracle) :
  run (isGitRemoteReadable (JStr gitRemoteUri)) w []
  = ([Exec ("git ls-remote -h " +:+ gitRemoteUri)],
     Normal (bool_decide
               (code (w [] (Exec ("git ls-remote -h " +:+ gitRemoteUri))) = 0))).
Proof.
  unfold isGitRemoteReadable. rewrite run_fatal_then.
  destruct (Z.eqb_spec (code (w [] (Exec ("git ls-remote -h " +:+ gitRemoteUri)))) 0)
    as [H|H]; cbn [try_catch run app].
  - by rewrite (bool_decide_eq_true_2 _ H).
  - by rewrite (bool_decide_eq_false_2 _ H).
Qed.

(** X13.  Every function of the helper that takes a remote URI throws a
    TypeError on a value that is no string, and the three probes do so
    before any shell call; the asynchronous probe does the same on a wait
    that is [NaN]. *)
Theorem uri_functions_reject_non_strings
    (v : value) (w : oracle) (waitSeconds : option number) (gitRemoteUri : string)
    (Hv : typeof v <> "string") :
  run (isGitRemoteEmpty v) w [] = ([], Throw (TypeError "ERROR_UNEXPECTED_TYPE"))
  /\ run (isGitRemoteReadable v) w [] = ([], Throw (TypeError "ERROR_UNEXPECTED_TYPE"))
  /\ run (isGitRemoteEmptyAsync v waitSeconds) w []
     = ([], Throw (TypeError "ERROR_UNEXPECTED_TYPE"))
  /\ run (isGitRemoteEmptyAsync (JStr gitRemoteUri) (Some NaN)) w []
     = ([], Throw (TypeError "ERROR_UNEXPECTED_TYPE"))
  /\ getRepoNameFromUri v
     = Throw (TypeError "ERROR_UNEXPECTED_TYPE: String expected for gitRemoteUri")
  /\ isGitUriValid v = Throw (TypeError "ERROR_UNEXPECTED_TYPE").
Proof. destruct v; try done. Qed.

End WrapperProperties.

Section UriProperties.

Lemma matches_opt (r : regex) (s : string) :
  matches (opt r) s = true -> matches r s = true \/ s = "".
Proof.
  unfold opt. rewrite matches_Or. intros [H|H]%orb_true_iff; [by left|].
  right. by apply matches_Empty.
Qed.

Lemma matches_chr (c : ascii) (s : string) :
  matches (chr c) s = true -> s = String c "".
Proof.
  intros (c' & -> & Hc)%matches_Class. by destruct (decide (c' = c)) as [->|].
Qed.

Lemma matches_plus_class (p : ascii -> bool) (s : string) :
  matches (plus (Class p)) s = true <-> s <> "" /\ all p s = true.
Proof.
  unfold plus. split.
  - intros (t & rest & -> & Ht & Hrest)%matches_Cat_split.
    apply matches_Class in Ht as (c & -> & Hc).
    apply (matches_Star_chars _ p _ (matches_Class p)) in Hrest.
    rewrite append_cons, append_nil_l. split; [done|]. cbn [all]. by rewrite Hc.
  - intros [Hne Hall]. destruct s as [|c rest]; [done|].
    cbn [all] in Hall. apply andb_true_iff in Hall as [Hc Hrest].
    change (String c rest) with (String c "" +:+ rest).
    apply matches_Cat_join; [by apply matches_Class_one|].
    by apply (matches_Star_run _ p _ (matches_Class_one p)).
Qed.

Lemma matches_gitUri_scheme (head : string) :
  matches gitUri_scheme head = true <-> In head schemes.
Proof.
  unfold gitUri_scheme, schemes. split.
  - rewrite !matches_Or. intros [H|[H|H]%orb_true_iff]%orb_true_iff.
    + apply matches_lit in H as ->. by left.
    + apply matches_lit in H as ->. right. by left.
    + apply matches_Cat_split in H as (h & t & -> & Hh & Ht).
      apply matches_lit in Hh as ->.
      apply matches_opt in Ht as [->%matches_chr | ->]; cbn; tauto.
  - cbn [In]. intros [<-|[<-|[<-|[<-|[]]]]]; reflexivity.
Qed.

Lemma matches_gitUri_user (head : string) :
  matches gitUri_user head = true <-> user_head head.
Proof.
  unfold gitUri_user, user_head. split.
  - intros (h & host & -> & Hh & Hhost)%matches_Cat_split.
    apply matches_lit in Hh as ->. apply matches_plus_class in Hhost as [Hne Hall].
    by exists host.
  - intros (host & -> & Hne & Hall).
    apply matches_Cat_join; [apply matches_lit_self|].
    by apply matches_plus_class.
Qed.

Lemma matches_gitUri_rest (rest : string) :
  matches gitUri_rest rest = true <->
  exists separator path tail,
    rest = separator +:+ path +:+ ".git" +:+ tail
    /\ well_formed_rest separator path tail.
Proof.
  unfold gitUri_rest, well_formed_rest. split.
  - intros (sep & r1 & -> & Hsep & H)%matches_Cat_split.
    apply matches_Cat_split in H as (path & r2 & -> & Hpath & H).
    apply matches_Cat_split in H as (g & tail & -> & Hg & Htail).
    apply matches_lit in Hg as ->.
    apply matches_plus_class in Hpath as [Hne Hall].
    apply matches_Cat_split in Hsep as (colon & slashes & -> & Hcolon & Hslashes).
    apply matches_chr in Hcolon as ->.
    exists (":" +:+ slashes), path, tail. split; [done|].
    split; [|split; [done|split; [done|]]].
    + apply matches_opt in Hslashes as [->%matches_lit | ->]; [by right|by left].
    + apply matches_opt in Htail as [->%matches_chr | ->]; [by right|by left].
  - intros (sep & path & tail & -> & Hsep & Hne & Hall & Htail).
    apply matches_Cat_join; [|apply matches_Cat_join; [|apply matches_Cat_join]].
    + destruct Hsep as [-> | ->]; reflexivity.
    + by apply matches_plus_class.
    + apply matches_lit_self.
    + destruct Htail as [-> | ->]; reflexivity.
Qed.

Lemma exec_to_end_finds (r : regex) (front m : string) :
  matches r m = true -> exists m', exec_to_end r (front +:+ m) = Some m'.
Proof.
  intros Hm. destruct (exec_to_end r (front +:+ m)) as [m'|] eqn:E; [by exists m'|].
  apply exec_to_end_None in E. congruence.
Qed.

Lemma git_uri_ends (front head separator path tail : string) :
  tail = "" \/ tail = "/" ->
  ends_with ".git" (git_uri front head separator path tail)
  \/ ends_with ".git/" (git_uri front head separator path tail).
Proof.
  unfold git_uri, ends_with. intros [-> | ->]; [left|right];
    exists (front +:+ head +:+ separator +:+ path);
    by rewrite !append_assoc.
Qed.

(** X16.  A string that [isGitUriValid] accepts has the parts of the
    pattern: one of the four schemes at its very start, or [git@<host>]
    anywhere; then [:] or [://]; a non-empty path of the characters the
    pattern allows; and [.git], or [.git/], at its end. *)
Theorem isGitUriValid_sound (gitRemoteUri : string)
    (Hvalid : isGitUriValid (JStr gitRemoteUri) = Normal true) :
  (exists front head separator path tail,
      gitRemoteUri = git_uri front head separator path tail
      /\ well_formed_rest separator path tail
      /\ ((front = "" /\ In head schemes) \/ user_head head))
  /\ (ends_with ".git" gitRemoteUri \/ ends_with ".git/" gitRemoteUri).
Proof.
  assert (Hparts : exists front head separator path tail,
             gitRemoteUri = git_uri front head separator path tail
             /\ well_formed_rest separator path tail
             /\ ((front = "" /\ In head schemes) \/ user_head head)).
  { injection Hvalid as Hvalid. unfold gitUriRegEx_test in Hvalid.
    apply orb_true_iff in Hvalid as [H|H].
    - apply matches_Cat_split in H as (head & rest & -> & Hhead & Hrest).
      apply matches_gitUri_scheme in Hhead.
      apply matches_gitUri_rest in Hrest as (sep & path & tail & -> & Hwf).
      exists "", head, sep, path, tail. split; [done|]. split; [done|]. by left.
    - destruct (exec_to_end _ gitRemoteUri) as [m|] eqn:E; [|done].
      apply exec_to_end_Some in E as (Hm & front & ->).
      apply matches_Cat_split in Hm as (head & rest & -> & Hhead & Hrest).
      apply matches_gitUri_user in Hhead.
      apply matches_gitUri_rest in Hrest as (sep & path & tail & -> & Hwf).
      exists front, head, sep, path, tail. split; [done|]. split; [done|]. by right. }
  split; [exact Hparts|].
  destruct Hparts as (front & head & sep & path & tail & -> & (_ & _ & _ & Htail) & _).
  by apply git_uri_ends.
Qed.

Lemma isGitUriValid_complete_parts (front head separator path tail : string) :
  well_formed_rest separator path tail ->
  (front = "" /\ In head schemes) \/ user_head head ->
  isGitUriValid (JStr (git_uri front head separator path tail)) = Normal true.
Proof.
  intros Hrest Hhead.
  unfold isGitUriValid, gitUriRegEx_test, git_uri. f_equal.
  assert (Hr : matches gitUri_rest (separator +:+ path +:+ ".git" +:+ tail) = true).
  { apply matches_gitUri_rest. by exists separator, path, tail. }
  destruct Hhead as [[-> Hscheme] | Huser].
  - rewrite append_nil_l. apply orb_true_iff. left.
    apply matches_Cat_join; [by apply matches_gitUri_scheme|done].
  - apply orb_true_iff. right.
    destruct (exec_to_end_finds (Cat gitUri_user gitUri_rest) front
                (head +:+ separator +:+ path +:+ ".git" +:+ tail)) as [m' ->];
      [|done].
    apply matches_Cat_join; [by apply matches_gitUri_user|done].
Qed.

(** X17.  [isGitUriValid] accepts every string of these parts.  In
    particular the head [git@<host>] is accepted with any text in front of
    it, since the pattern ties only the schemes to the start. *)
Theorem isGitUriValid_complete (front head separator path tail : string)
    (Hrest : well_formed_rest separator path tail)
    (Hhead : (front = "" /\ In head schemes) \/ user_head head) :
  isGitUriValid (JStr (git_uri front head separator path tail)) = Normal true
  /\ (user_head head ->
      forall text, isGitUriValid (JStr (git_uri text head separator path tail))
                   = Normal true).
Proof.
  split; [by apply isGitUriValid_complete_parts|].
  intros Huser text. apply isGitUriValid_complete_parts; [done|by right].
Qed.

Lemma all_not_slash_no_segment (u front name slashes : string) :
  all (is_not "/") u = true -> u <> front +:+ trailing_segment name slashes.
Proof.
  intros Hall ->. unfold trailing_segment in Hall.
  rewrite all_append in Hall. apply andb_true_iff in Hall as [_ Hall].
  rewrite (append_cons "/" ""), append_nil_l in Hall. cbn [all] in Hall.
  apply andb_true_iff in Hall as [Hslash _]. vm_compute in Hslash. discriminate.
Qed.

(** X18.  A URI that [isGitUriValid] accepts need not be one that
    [getRepoNameFromUri] can read: for every scheme and every name,
    [<scheme>:<name>.git] is valid, and [getRepoNameFromUri] throws a
    TypeError on it, because no slash stands before the name. *)
Theorem valid_uri_without_slash_has_no_name (scheme name : string)
    (Hscheme : In scheme schemes)
    (Hne : name <> "") (Hname : all is_name name = true) :
  isGitUriValid (JStr (git_uri "" scheme ":" name "")) = Normal true
  /\ getRepoNameFromUri (JStr (git_uri "" scheme ":" name ""))
     = Throw (TypeError "Cannot read property '0' of null").
Proof.
  split.
  - apply isGitUriValid_complete_parts; [|by left].
    split; [by left|]. split; [done|]. split; [|by left].
    apply (all_impl is_name); [|done].
    intros c Hc. unfold is_name in Hc. unfold is_path.
    apply orb_true_iff in Hc as [Hc|Hc]; [by rewrite Hc|].
    destruct (decide (c = "-"%char)) as [->|]; [reflexivity|done].
  - unfold getRepoNameFromUri.
    destruct (exec_to_end repoNameRegEx _) as [m|] eqn:E; [|reflexivity].
    exfalso. apply exec_to_end_Some in E as (Hm & front & Hu).
    apply repoNameRegEx_matches in Hm as (c & rest & slashes & -> & _ & _).
    revert Hu. apply all_not_slash_no_segment.
    unfold git_uri. rewrite append_nil_l, !all_append.
    assert (Hs : all (is_not "/") scheme = true).
    { unfold schemes in Hscheme. cbn [In] in Hscheme.
      destruct Hscheme as [<-|[<-|[<-|[<-|[]]]]]; reflexivity. }
    rewrite Hs. cbn [andb].
    assert (Hn : all (is_not "/") name = true)
      by (apply (all_impl is_name); [apply is_name_no_slash|done]).
    rewrite Hn. reflexivity.
Qed.

End UriProperties.

Section CloneProperties.

Variable path_normalize : string -> string.
Variable path_resolve : string -> string.

Local Abbreviation gitClone := (Git.gitClone path_normalize path_resolve).

(** X19.  [gitClone] returns normally exactly when its last shell call is
    the clone and the clone succeeded.  The clone is issued only from
    inside the target directory: directly after a change into the target
    and a [pwd] that both succeeded, or directly after a creation of the
    target and a change into it that both succeeded. *)
Theorem gitClone_clones_inside_target
    (gitRemoteUri targetDirectory : string) (w : oracle)
    (Hdir : trim targetDirectory <> "") :
  let target := path_resolve (path_normalize targetDirectory) in
  let clone := Exec ("git clone " +:+ gitRemoteUri) in
  let result := run (gitClone (JStr gitRemoteUri) (JStr targetDirectory)) w [] in
  (snd result = Normal tt <->
   exists before, fst result = (before ++ [clone])%list /\ code (w before clone) = 0)
  /\ (forall before, fst result = (before ++ [clone])%list ->
      (before = [Cd target; Pwd]
       /\ code (w [] (Cd target)) = 0 /\ code (w [Cd target] Pwd) = 0)
      \/ (exists front,
            before = (front ++ [Mkdir "-p" target; Cd target])%list
            /\ code (w front (Mkdir "-p" target)) = 0
            /\ code (w (front ++ [Mkdir "-p" target])%list (Cd target)) = 0)).
Proof.
  intros target clone result. unfold result.
  rewrite (gitClone_run path_normalize path_resolve) by done.
  cbv zeta. fold target. fold clone. cbn [app].
  assert (Hlast : forall (l before : list shellCall) (c : shellCall),
             (l ++ [c])%list = (before ++ [clone])%list -> before = l /\ c = clone).
  { intros l before c H. by apply app_inj_tail in H as [-> ->]. }
  assert (Hfinish : forall log,
    (log = [Cd target; Pwd]
       /\ code (w [] (Cd target)) = 0 /\ code (w [Cd target] Pwd) = 0)
    \/ (exists front,
          log = (front ++ [Mkdir "-p" target; Cd target])%list
          /\ code (w front (Mkdir "-p" target)) = 0
          /\ code (w (front ++ [Mkdir "-p" target])%list (Cd target)) = 0) ->
    let r := ((log ++ [clone])%list,
              if code (w log clone) =? 0 then Normal tt
              else Throw (DESTINATION_NOT_EMPTY target)) in
    (snd r = Normal tt <->
     exists before, fst r = (before ++ [clone])%list /\ code (w before clone) = 0)
    /\ (forall before, fst r = (before ++ [clone])%list ->
        (before = [Cd target; Pwd]
         /\ code (w [] (Cd target)) = 0 /\ code (w [Cd target] Pwd) = 0)
        \/ (exists front,
              before = (front ++ [Mkdir "-p" target; Cd target])%list
              /\ code (w front (Mkdir "-p" target)) = 0
              /\ code (w (front ++ [Mkdir "-p" target])%list (Cd target)) = 0))).
  { intros log Hlog r. unfold r. cbn [fst snd]. split.
    - destruct (Z.eqb_spec (code (w log clone)) 0) as [Hc|Hc]; split; try done.
      + intros _. by exists log.
      + intros (before & [-> _]%Hlast & Hz). done.
    - intros before [-> _]%Hlast. exact Hlog. }
  assert (Hstop : forall (log : list shellCall) (c : shellCall) (e : exn),
    c <> clone ->
    let r := ((log ++ [c])%list, Throw (A := unit) e) in
    (snd r = Normal tt <->
     exists before, fst r = (before ++ [clone])%list /\ code (w before clone) = 0)
    /\ (forall before, fst r = (before ++ [clone])%list ->
        (before = [Cd target; Pwd]
         /\ code (w [] (Cd target)) = 0 /\ code (w [Cd target] Pwd) = 0)
        \/ (exists front,
              before = (front ++ [Mkdir "-p" target; Cd target])%list
              /\ code (w front (Mkdir "-p" target)) = 0
              /\ code (w (front ++ [Mkdir "-p" target])%list (Cd target)) = 0))).
  { intros log c e Hc r. unfold r. cbn [fst snd]. split.
    - split; [done|]. intros (before & [_ ?]%Hlast & _). done.
    - intros before [_ ?]%Hlast. done. }
  destruct (Z.eqb_spec (code (w [] (Cd target))) 0) as [Hcd|Hcd];
    [destruct (Z.eqb_spec (code (w [Cd target] Pwd)) 0) as [Hpwd|Hpwd];
     [|destruct (Z.eqb_spec (code (w [Cd target; Pwd] (Mkdir "-p" target))) 0)
         as [Hmk|Hmk];
       [destruct (Z.eqb_spec
                    (code (w [Cd target; Pwd; Mkdir "-p" target] (Cd target))) 0)
          as [Hcd2|Hcd2]|]]
    |destruct (Z.eqb_spec (code (w [Cd target] (Mkdir "-p" target))) 0)
        as [Hmk|Hmk];
      [destruct (Z.eqb_spec
                   (code (w [Cd target; Mkdir "-p" target] (Cd target))) 0)
         as [Hcd2|Hcd2]|]].
  - apply (Hfinish [Cd target; Pwd]). by left.
  - apply (Hfinish [Cd target; Pwd; Mkdir "-p" target; Cd target]).
    right. by exists [Cd target; Pwd].
  - apply (Hstop [Cd target; Pwd; Mkdir "-p" target] (Cd target)). discriminate.
  - apply (Hstop [Cd target; Pwd] (Mkdir "-p" target)). discriminate.
  - apply (Hfinish [Cd target; Mkdir "-p" target; Cd target]).
    right. by exists [Cd target].
  - apply (Hstop [Cd target; Mkdir "-p" target] (Cd target)). discriminate.
  - apply (Hstop [Cd target] (Mkdir "-p" target)). discriminate.
Qed.

End CloneProperties.

(** *** The further properties on sample inputs *)

Lemma gitAddAndCommit_stops_at_first_failure_witness :
  let committed := run (gitAddAndCommit (JStr "work") (JStr "first commit")) in
  "work" <> "" /\ "first commit" <> ""
  /\ snd (committed all_succeed []) = Normal tt
  /\ ~ In (git_commit "first commit")
         (fst (committed (failing (Exec "git add -A")) [])).
Proof.
  intros committed.
  assert (Hd : "work" <> "") by discriminate.
  assert (Hm : "first commit" <> "") by discriminate.
  split; [exact Hd|]. split; [exact Hm|]. split.
  - destruct (gitAddAndCommit_stops_at_first_failure "work" "first commit"
                all_succeed Hd Hm) as (_ & _ & _ & Hnormal).
    apply Hnormal. repeat split.
  - destruct (gitAddAndCommit_stops_at_first_failure "work" "first commit"
                (failing (Exec "git add -A")) Hd Hm) as (_ & _ & Hcommit & _).
    intros Hin. apply Hcommit in Hin as [_ Hadd]. vm_compute in Hadd. discriminate.
Defined.

Lemma wrappers_need_the_directory_witness :
  "work" <> "" /\ "git@example.com:org/repo.git" <> ""
  /\ fst (run (gitInit (JStr "work")) (failing (Cd "work")) []) = [Cd "work"]
  /\ fst (run (gitRemoteAddOrigin (JStr "work") (JStr "git@example.com:org/repo.git"))
            all_succeed [])
     = [Cd "work"; git_remote_add "git@example.com:org/repo.git"].
Proof.
  assert (Hd : "work" <> "") by discriminate.
  assert (Hu : "git@example.com:org/repo.git" <> "") by discriminate.
  split; [exact Hd|]. split; [exact Hu|]. split.
  - destruct (wrappers_need_the_directory "work" "git@example.com:org/repo.git"
                (failing (Cd "work")) Hd Hu) as (Hinit & _).
    exact Hinit.
  - destruct (wrappers_need_the_directory "work" "git@example.com:org/repo.git"
                all_succeed Hd Hu) as (_ & _ & Horigin & _).
    exact Horigin.
Defined.

Lemma uri_functions_reject_non_strings_witness :
  typeof (JNum (Num 5)) <> "string"
  /\ run (isGitRemoteReadable (JNum (Num 5))) all_succeed []
     = ([], Throw (TypeError "ERROR_UNEXPECTED_TYPE"))
  /\ isGitUriValid (JNum (Num 5)) = Throw (TypeError "ERROR_UNEXPECTED_TYPE").
Proof.
  assert (H : typeof (JNum (Num 5)) <> "string") by discriminate.
  split; [exact H|].
  destruct (uri_functions_reject_non_strings (JNum (Num 5)) all_succeed None
              "https://example.com/org/my-repo.git" H)
    as (_ & Hreadable & _ & _ & _ & Hvalid).
  split; [exact Hreadable|exact Hvalid].
Defined.

Lemma getRepoNameFromUri_segment_witness :
  all is_name "my-repo" = true /\ all is_slash "//" = true
  /\ getRepoNameFromUri
       (JStr ("https://example.com/org" +:+ trailing_segment "my-repo" "//"))
     = Normal "my-repo".
Proof.
  split; [reflexivity|]. split; [reflexivity|].
  apply (getRepoNameFromUri_segment "https://example.com/org" "y-repo" "//" "m");
    reflexivity.
Defined.

Lemma isGitUriValid_sound_witness :
  isGitUriValid (JStr "https://github.com/my-org/my-repo.git") = Normal true
  /\ (ends_with ".git" "https://github.com/my-org/my-repo.git"
      \/ ends_with ".git/" "https://github.com/my-org/my-repo.git").
Proof.
  assert (H : isGitUriValid (JStr "https://github.com/my-org/my-repo.git")
              = Normal true) by reflexivity.
  split; [exact H|].
  exact (proj2 (isGitUriValid_sound "https://github.com/my-org/my-repo.git" H)).
Defined.

Lemma isGitUriValid_complete_witness :
  well_formed_rest ":" "my-org/my-repo" "/"
  /\ user_head "git@github.com"
  /\ isGitUriValid (JStr (git_uri "" "git@github.com" ":" "my-org/my-repo" "/"))
     = Normal true
  /\ isGitUriValid
       (JStr (git_uri "no URI at all, then " "git@github.com" ":" "my-org/my-repo" "/"))
     = Normal true.
Proof.
  assert (Hrest : well_formed_rest ":" "my-org/my-repo" "/").
  { split; [by left|]. split; [discriminate|]. split; [reflexivity|by right]. }
  assert (Huser : user_head "git@github.com").
  { exists "github.com". split; [reflexivity|]. split; [discriminate|reflexivity]. }
  split; [exact Hrest|]. split; [exact Huser|].
  destruct (isGitUriValid_complete "" "git@github.com" ":" "my-org/my-repo" "/"
              Hrest (or_intror Huser)) as (Hvalid & Hany).
  split; [exact Hvalid|]. exact (Hany Huser "no URI at all, then ").
Defined.

Lemma valid_uri_without_slash_has_no_name_witness :
  In "ssh" schemes /\ "my-repo" <> "" /\ all is_name "my-repo" = true
  /\ isGitUriValid (JStr "ssh:my-repo.git") = Normal true
  /\ getRepoNameFromUri (JStr "ssh:my-repo.git")
     = Throw (TypeError "Cannot read property '0' of null").
Proof.
  assert (Hs : In "ssh" schemes) by (right; by left).
  assert (Hne : "my-repo" <> "") by discriminate.
  assert (Hname : all is_name "my-repo" = true) by reflexivity.
  split; [exact Hs|]. split; [exact Hne|]. split; [exact Hname|].
  exact (valid_uri_without_slash_has_no_name "ssh" "my-repo" Hs Hne Hname).
Defined.

Lemma gitClone_clones_inside_target_witness :
  let result :=
    run (Git.gitClone (fun p => p) (resolve_in "/home/demo")
           (JStr "https://example.com/org/my-repo.git") (JStr "work"))
        all_succeed [] in
  trim "work" <> ""
  /\ fst result = [Cd "/home/demo/work"; Pwd;
                   Exec "git clone https://example.com/org/my-repo.git"]
  /\ snd result = Normal tt.
Proof.
  intros result.
  assert (Hdir : trim "work" <> "") by (vm_compute; discriminate).
  split; [exact Hdir|]. split; [reflexivity|].
  destruct (gitClone_clones_inside_target (fun p => p) (resolve_in "/home/demo")
              "https://example.com/org/my-repo.git" "work" all_succeed Hdir)
    as (Hnormal & _).
  apply Hnormal. exists [Cd "/home/demo/work"; Pwd]. split; reflexivity.
Defined.
